(** * demoblaze-e2e: price normalisation and the cart page object

    A shallow embedding of [src/utils/money.ts] ([parsePrice]) and of
    [src/pages/CartPage.ts] (the cart page object), with the properties the
    specification states about them.

    - JavaScript strings are sequences of UTF-16 code units ([jsstring]).
    - JavaScript Numbers are IEEE 754 binary64 values, taken from the
      standard library's [spec_float] with [prec = 53] and [emax = 1024].
    - The page object runs in a small state-and-error monad over the cart
      page as the storefront shows it. *)

From Stdlib Require Import ZArith NArith QArith Qround Qabs List Bool Ascii String Lia Lqa.
From Stdlib Require Import Floats.SpecFloat.
Import ListNotations.

Local Open Scope Z_scope.

(** ** JavaScript strings *)

Module JS.

(** A code unit of a JavaScript string. *)
Definition char16 := N.

Definition jsstring := list char16.

(** The JavaScript string with the (Latin-1) characters of a literal. *)
Definition js (s : string) : jsstring := map N_of_ascii (list_ascii_of_string s).
Arguments js s%_string.

(** [\d] of a regular expression without the [u] flag: [0-9]. *)
Definition isDigit (c : char16) : bool := ((48 <=? c) && (c <=? 57))%N.

(** The full stop, U+002E. *)
Definition isDot (c : char16) : bool := (c =? 46)%N.

(** WhiteSpace and LineTerminator code points of ECMAScript, as skipped by
    [parseFloat] and removed by [String.prototype.trim]. *)
Definition whiteSpaceChars : list char16 :=
  [9; 10; 11; 12; 13; 32; 160; 5760;
   8192; 8193; 8194; 8195; 8196; 8197; 8198; 8199; 8200; 8201; 8202;
   8232; 8233; 8239; 8287; 12288; 65279]%N.

Definition isWhiteSpace (c : char16) : bool := existsb (N.eqb c) whiteSpaceChars.

Fixpoint dropWhile {A} (f : A -> bool) (l : list A) : list A :=
  match l with
  | [] => []
  | x :: l' => if f x then dropWhile f l' else l
  end.

(** Longest prefix of [l] whose elements satisfy [f], and the rest. *)
Fixpoint span {A} (f : A -> bool) (l : list A) : list A * list A :=
  match l with
  | [] => ([], [])
  | x :: l' => if f x then let '(a, b) := span f l' in (x :: a, b) else ([], l)
  end.

Fixpoint jsstring_eqb (a b : jsstring) : bool :=
  match a, b with
  | [], [] => true
  | x :: a', y :: b' => (x =? y)%N && jsstring_eqb a' b'
  | _, _ => false
  end.

Fixpoint startsWith (p s : jsstring) : bool :=
  match p, s with
  | [], _ => true
  | x :: p', y :: s' => (x =? y)%N && startsWith p' s'
  | _ :: _, [] => false
  end.

(** [String.prototype.trim]. *)
Definition trim (s : jsstring) : jsstring :=
  rev (dropWhile isWhiteSpace (rev (dropWhile isWhiteSpace s))).

(** *** Numbers *)

Definition prec : Z := 53.
Definition emax : Z := 1024.

Definition Number := spec_float.

(** The Number of an integer literal. *)
Definition ofZ (z : Z) : Number := binary_normalize prec emax z 0 false.

(** The literal [0]. *)
Definition zero : Number := S754_zero false.

(** The binary64 value nearest to [num / den] (ties to even), with the sign
    [neg]; [num] and [den] are positive. *)
Definition nearest (neg : bool) (num den : positive) : Number :=
  let '(q, e, l) := SFdiv_core_binary prec emax (Zpos num) 0 (Zpos den) 0 in
  binary_round_aux prec emax neg q e l.

(** The Number value of the mathematical value [m * 10 ^ e10], rounded
    correctly whatever the number of digits (as V8 and the other engines
    do; ECMAScript lets an implementation approximate past the twentieth
    significant digit). *)
Definition ofDecimal (neg : bool) (m : N) (e10 : Z) : Number :=
  match m with
  | N0 => S754_zero neg
  | Npos p =>
      if 0 <=? e10
      then nearest neg (p * Z.to_pos (10 ^ e10)) 1
      else nearest neg p (Z.to_pos (10 ^ (- e10)))
  end.

(** The mathematical value of a run of decimal digits. *)
Definition digitsValue (ds : jsstring) : N :=
  fold_left (fun acc c => 10 * acc + (c - 48))%N ds 0%N.

(** An optional sign: whether it is a minus, and the text after it. *)
Definition splitSign (s : jsstring) : bool * jsstring :=
  match s with
  | c :: r =>
      if (c =? 43)%N then (false, r)
      else if (c =? 45)%N then (true, r)
      else (false, s)
  | [] => (false, s)
  end.

(** ExponentPart of a StrDecimalLiteral: the decimal exponent it denotes, 0
    when the text does not continue with one. *)
Definition exponentPart (s : jsstring) : Z :=
  match s with
  | c :: r =>
      if ((c =? 101) || (c =? 69))%N then
        let '(neg, r') := splitSign r in
        match fst (span isDigit r') with
        | [] => 0
        | ds => if neg then - Z.of_N (digitsValue ds) else Z.of_N (digitsValue ds)
        end
      else 0
  | [] => 0
  end.

(** The digits after a decimal point, when the text starts with one, and
    the text after them. *)
Definition fractionPart (s : jsstring) : jsstring * jsstring :=
  match s with
  | c :: r => if isDot c then span isDigit r else ([], s)
  | [] => ([], s)
  end.

(** The longest prefix of [s] that is a StrUnsignedDecimalLiteral, as a
    Number of sign [neg]; NaN when no prefix is one. *)
Definition parseUnsigned (neg : bool) (s : jsstring) : Number :=
  if startsWith (js "Infinity") s then S754_infinity neg
  else
    let '(ip, r1) := span isDigit s in
    let '(fp, r2) := fractionPart r1 in
    match ip ++ fp with
    | [] => S754_nan
    | ds => ofDecimal neg (digitsValue ds) (exponentPart r2 - Z.of_nat (List.length fp))
    end.

(** [Number.parseFloat]: leading white space is skipped, then the longest
    prefix that is a StrDecimalLiteral is converted. *)
Definition parseFloat (s : jsstring) : Number :=
  let '(neg, u) := splitSign (dropWhile isWhiteSpace s) in
  parseUnsigned neg u.

(** [Number.isFinite]. *)
Definition isFinite (x : Number) : bool :=
  match x with
  | S754_zero _ | S754_finite _ _ _ => true
  | S754_infinity _ | S754_nan => false
  end.

(** The binary64 encoding of the integer [(-1)^neg * p], for [p] below
    [2^53]: the mantissa is aligned to 53 bits. *)
Definition ofPositive (neg : bool) (p : positive) : Number :=
  let k := Z.max 0 (prec - Zpos (digits2_pos p)) in
  S754_finite neg (Z.to_pos (Z.shiftl (Zpos p) k)) (- k).

(** The Number of an integer of magnitude below [2^53]; a zero takes the
    sign [neg] of the value it was rounded from. *)
Definition ofInteger (neg : bool) (z : Z) : Number :=
  match z with
  | Z0 => S754_zero neg
  | Zpos p => ofPositive false p
  | Zneg p => ofPositive true p
  end.

(** [Math.round]: the integer nearest to [x], a tie going towards
    +Infinity; NaN, the infinities and the zeros are returned as they are. *)
Definition round (x : Number) : Number :=
  match x with
  | S754_finite s m e =>
      if 0 <=? e then x
      else
        let v := if s then Zneg m else Zpos m in
        ofInteger s (Z.shiftr (2 * v + 2 ^ (- e)) (1 - e))
  | _ => x
  end.

End JS.

Import JS.

(** ** src/utils/money.ts *)

(** [text.replace(/[^\d.]/g, '')]. *)
Definition keep (c : char16) : bool := isDigit c || isDot c.

Definition stripNonNumeric (text : jsstring) : jsstring := filter keep text.

(** [a || b] on strings: the empty string is the only falsy one. *)
Definition orElse (a b : jsstring) : jsstring :=
  match a with
  | [] => b
  | _ => a
  end.

Definition parsePrice (text : jsstring) : Number :=
  let digits := stripNonNumeric text in
  let n := parseFloat (orElse digits (js "0")) in
  JS.round (if isFinite n then n else zero).

(** *** Reading a Number *)

(** The integer a Number denotes, when it denotes one. *)
Definition asInteger (x : Number) : option Z :=
  match x with
  | S754_zero _ => Some 0
  | S754_finite s m e =>
      let v := if s then Zneg m else Zpos m in
      if 0 <=? e then Some (v * 2 ^ e)
      else if v mod 2 ^ (- e) =? 0 then Some (v / 2 ^ (- e)) else None
  | S754_infinity _ | S754_nan => None
  end.

(** The exact rational value of a finite Number. *)
Definition valueOf (x : Number) : option Q :=
  match x with
  | S754_zero _ => Some (0 # 1)
  | S754_finite s m e =>
      let v := if s then Zneg m else Zpos m in
      Some (if 0 <=? e then inject_Z (v * 2 ^ e) else v # Z.to_pos (2 ^ (- e)))
  | S754_infinity _ | S754_nan => None
  end.

(** The sign bit of a Number is clear; NaN carries none. *)
Definition notNegative (x : Number) : Prop :=
  match x with
  | S754_zero s | S754_infinity s | S754_finite s _ _ => s = false
  | S754_nan => True
  end.

(** ** The Price Normalizer in the words of the specification

    Strip every character that is not a decimal digit or a decimal point;
    parse the remaining text as a floating-point number; if parsing fails or
    the text is empty, the amount is zero; round the result to the nearest
    integer, a tie going away from zero.  A parse fails when it yields no
    finite number. *)

Definition roundHalfAway (v : Q) : Z :=
  if Qle_bool 0 v then Qfloor (v + (1 # 2)) else Qceiling (v - (1 # 2)).

Definition normalize (raw : jsstring) : Z :=
  match filter (fun c => isDigit c || isDot c) raw with
  | [] => 0
  | rest =>
      match valueOf (parseFloat rest) with
      | Some v => roundHalfAway v
      | None => 0
      end
  end.

(** ** src/pages/CartPage.ts *)

(** A row of [#tbodyid]: the text content of its second and third cell
    ([null] is [None]). *)
Record Row := { nameCell : option jsstring; priceCell : option jsstring }.

(** The cells the page object reads: [td] 1, the title, and [td] 2, the
    price. *)
Inductive column := Title | Price.

Definition cellOf (c : column) (r : Row) : option jsstring :=
  match c with
  | Title => nameCell r
  | Price => priceCell r
  end.

(** The cart page as the storefront shows it once settled: the rows matched
    by [#tbodyid > tr], in document order, and the text of [#totalp]. *)
Record Page := { rows : list Row; totalp : option jsstring }.

(** What the page object asks of the page. *)
Inductive action :=
| ClickCart
| ClickDelete (i : nat)
| WaitDetached (i : nat).

Record World := { page : Page; log : list action }.

(** What a locator stands for. *)
Inductive locator :=
| Cell (row : nat) (col : column)
| DeleteLink (row : nat)
| RowAt (row : nat).

(** What a method throws: Playwright's time-out on a locator that does not
    resolve (or does not reach the awaited state), the [Error] of
    [deleteByName], and a failed [expect]. *)
Inductive exn :=
| TimeoutError (l : locator)
| Error (message : jsstring)
| ExpectError.

(** A method of the page object: it returns or throws, and leaves a world. *)
Definition M (A : Type) : Type := World -> (exn + A) * World.

Definition ret {A} (a : A) : M A := fun w => (inr a, w).

Definition throw {A} (e : exn) : M A := fun w => (inl e, w).

Definition bind {A B} (m : M A) (f : A -> M B) : M B :=
  fun w =>
    match m w with
    | (inr a, w') => f a w'
    | (inl e, w') => (inl e, w')
    end.

Notation "x <- c ;; k" := (bind c (fun x => k))
  (at level 100, c at next level, right associativity).
Notation "c ;;; k" := (bind c (fun _ => k))
  (at level 100, right associativity).

(** [a ?? b]. *)
Definition nullish {A} (a : option A) (b : A) : A :=
  match a with
  | Some x => x
  | None => b
  end.

(** [No se encontró el ítem "name" para eliminar.] *)
Definition notFoundMessage (name : jsstring) : jsstring :=
  js "No se encontr" ++ [243%N] ++ js " el " ++ [237%N] ++ js "tem " ++ [34%N]
    ++ name ++ [34%N] ++ js " para eliminar.".

(** The storefront's part in a deletion: the cart page it shows once the
    request of the Delete link of row [i] has been processed, and whether
    the wait for the locator of row [i] to be detached, started after such a
    request has left the page [q], succeeds. *)
Record Storefront := {
  deleted : nat -> Page -> Page;
  detached : nat -> Page -> bool
}.

Section CartPage.

Variable shop : Storefront.

(** *** Playwright on the settled page

    A locator is resolved each time it is used.  An action or a read on a
    locator that resolves to nothing times out.  Clicks and reads see the
    page settled after the call before them; what the page shows while the
    storefront is still processing a deletion matters to the wait that
    follows the click only, and is the storefront's [detached]. *)

Definition act (a : action) : M unit :=
  fun w => (inr tt, {| page := page w; log := log w ++ [a] |}).

(** [this.rows.count()]. *)
Definition rows_count : M nat :=
  fun w => (inr (List.length (rows (page w))), w).

(** [this.rows.nth(i).locator('td').nth(c).textContent()]. *)
Definition cell_textContent (i : nat) (c : column) : M (option jsstring) :=
  fun w =>
    match nth_error (rows (page w)) i with
    | Some r => (inr (cellOf c r), w)
    | None => (inl (TimeoutError (Cell i c)), w)
    end.

(** [this.total.textContent()]. *)
Definition total_textContent : M (option jsstring) :=
  fun w => (inr (totalp (page w)), w).

(** [this.rows.nth(i).getByRole('link', { name: 'Delete' }).click()]. *)
Definition delete_click (i : nat) : M unit :=
  fun w =>
    match nth_error (rows (page w)) i with
    | Some _ =>
        (inr tt, {| page := deleted shop i (page w); log := log w ++ [ClickDelete i] |})
    | None => (inl (TimeoutError (DeleteLink i)), w)
    end.

(** [this.rows.nth(i).waitFor({ state: 'detached' })]. *)
Definition waitFor_detached (i : nat) : M unit :=
  act (WaitDetached i) ;;;
  fun w =>
    if detached shop i (page w) then (inr tt, w)
    else (inl (TimeoutError (RowAt i)), w).

(** [expect(this.rows.first()).toBeVisible()]. *)
Definition expect_first_visible : M unit :=
  fun w =>
    match rows (page w) with
    | _ :: _ => (inr tt, w)
    | [] => (inl ExpectError, w)
    end.

(** [expect(n).toBe(k)]. *)
Definition expect_toBe (n k : nat) : M unit :=
  if Nat.eqb n k then ret tt else throw ExpectError.

(** *** The page object *)

(** The waits for the load state and for two seconds leave the settled
    page as it is. *)
Definition open : M unit :=
  act ClickCart ;;;
  itemCount <- rows_count ;;
  if Nat.ltb 0 itemCount then expect_first_visible else ret tt.

Definition countItems : M nat := rows_count.

Definition getRowName (i : nat) : M jsstring :=
  t <- cell_textContent i Title ;;
  ret (trim (nullish t [])).

Definition getRowPrice (i : nat) : M Number :=
  t <- cell_textContent i Price ;;
  ret (parsePrice (nullish t (js "0"))).

Definition getTotal : M Number :=
  t <- total_textContent ;;
  ret (parsePrice (nullish t (js "0"))).

Definition deleteByIndex (i : nat) : M unit :=
  delete_click i ;;;
  waitFor_detached i.

(** [for (let i = k - 1; i >= 0; i--) await this.deleteByIndex(i)]. *)
Fixpoint clearCart_loop (k : nat) : M unit :=
  match k with
  | O => ret tt
  | S i => deleteByIndex i ;;; clearCart_loop i
  end.

Definition clearCart : M unit :=
  open ;;;
  itemCount <- countItems ;;
  if Nat.eqb itemCount 0 then ret tt
  else
    clearCart_loop itemCount ;;;
    c <- countItems ;;
    expect_toBe c 0.

(** [for (let i = i0; i < i0 + k; i++) ...], then the [throw] after the
    loop. *)
Fixpoint deleteByName_loop (name : jsstring) (k i : nat) : M unit :=
  match k with
  | O => throw (Error (notFoundMessage name))
  | S k' =>
      rowName <- getRowName i ;;
      if jsstring_eqb rowName name then deleteByIndex i
      else deleteByName_loop name k' (S i)
  end.

Definition deleteByName (name : jsstring) : M unit :=
  n <- countItems ;;
  deleteByName_loop name n 0.

End CartPage.

(** The listing without its row [i]; the text of the total is left as it
    is. *)
Definition removeRow (i : nat) (p : Page) : Page :=
  {| rows := firstn i (rows p) ++ skipn (S i) (rows p); totalp := totalp p |}.

(** No row is at position [i]. *)
Definition noRowAt (i : nat) (q : Page) : bool :=
  match nth_error (rows q) i with
  | None => true
  | Some _ => false
  end.

(** A storefront that takes the row out of the listing in place: the
    locator of row [i] is detached when no row is left at position [i]. *)
Definition inPlace : Storefront := {| deleted := removeRow; detached := noRowAt |}.

(** A storefront that draws the whole listing anew after a deletion: while
    it does, no row is attached. *)
Definition redrawn : Storefront := {| deleted := removeRow; detached := fun _ _ => true |}.

(** A price text that spells the whole number [n]: what is left of it once
    everything but digits and dots is stripped is a run of digits, of value
    [n] below [2^53]. *)
Definition wholeNumber (text : jsstring) (n : Z) : Prop :=
  stripNonNumeric text <> [] /\
  Forall (fun c => isDigit c = true) (stripNonNumeric text) /\
  Z.of_N (digitsValue (stripNonNumeric text)) = n /\
  n < 2 ^ prec.

(** The name and the price [getRowName] and [getRowPrice] read off a row. *)
Definition rowName (r : Row) : jsstring := trim (nullish (nameCell r) []).

Definition rowPrice (r : Row) : Number := parsePrice (nullish (priceCell r) (js "0")).

(** The world once a deletion was asked for at row [i] and waited for. *)
Definition afterDeletion (shop : Storefront) (i : nat) (w : World) : World :=
  {| page := deleted shop i (page w); log := log w ++ [ClickDelete i; WaitDetached i] |}.

(** The deletions [clearCart] asks for on a cart of [n] rows: from the last
    position down to the first, each followed by its wait. *)
Definition deletionsFromLast (n : nat) : list action :=
  flat_map (fun i => [ClickDelete i; WaitDetached i]) (rev (seq 0 n)).






(** A cart of three laptops at whole prices, for the examples. *)
Definition laptops : World :=
  {| page :=
       {| rows :=
            [ {| nameCell := Some (js "Sony vaio i5"); priceCell := Some (js "790") |};
              {| nameCell := Some (js "Sony vaio i7"); priceCell := Some (js "790") |};
              {| nameCell := Some (js " Dell i7 8gb "); priceCell := Some (js "$1,235") |} ];
          totalp := Some (js "2815") |};
     log := [] |}.


(** ** src/tests/cart.spec.ts *)

(** [x + y] on Numbers. *)
Definition Number_add (x y : Number) : Number := SFadd prec emax x y.

(** [Object.is] on Numbers, with which [toBe] compares: NaN is NaN, and the
    two zeros differ.  Numbers are compared in their binary64 encoding. *)
Definition Number_is (x y : Number) : bool :=
  match x, y with
  | S754_zero s, S754_zero s' => Bool.eqb s s'
  | S754_infinity s, S754_infinity s' => Bool.eqb s s'
  | S754_nan, S754_nan => true
  | S754_finite s m e, S754_finite s' m' e' =>
      Bool.eqb s s' && (m =? m')%positive && (e =? e')
  | _, _ => false
  end.

(** [s.includes(sub)], the test [toContain] makes on a string. *)
Fixpoint includes (s sub : jsstring) : bool :=
  startsWith sub s ||
  match s with
  | [] => false
  | _ :: s' => includes s' sub
  end.

(** [expect(n).toBeGreaterThanOrEqual(k)]. *)
Definition expect_toBeGreaterThanOrEqual (n k : nat) : M unit :=
  if Nat.leb k n then ret tt else throw ExpectError.

(** [expect(x).toBe(y)] on Numbers. *)
Definition expect_Number_toBe (x y : Number) : M unit :=
  if Number_is x y then ret tt else throw ExpectError.

(** [expect(s).toContain(sub)] on strings. *)
Definition expect_toContain (s sub : jsstring) : M unit :=
  if includes s sub then ret tt else throw ExpectError.

(** [[n0, n1].join(' ')]. *)
Definition join2 (n0 n1 : jsstring) : jsstring := n0 ++ [32%N] ++ n1.

(** TC-01 on the cart page, from [cart.open()] on; the steps before it put
    the product in the cart on the storefront. *)
Definition TC01_cart : M unit :=
  open ;;;
  n <- countItems ;;
  expect_toBeGreaterThanOrEqual n 1 ;;;
  price <- getRowPrice 0 ;;
  total <- getTotal ;;
  expect_Number_toBe total price ;;;
  nameInCart <- getRowName 0 ;;
  expect_toContain nameInCart (js "Sony vaio i5").

(** TC-02 on the cart page, from [cart.open()] on. *)
Definition TC02_cart : M unit :=
  open ;;;
  n <- countItems ;;
  expect_toBeGreaterThanOrEqual n 2 ;;;
  p0 <- getRowPrice 0 ;;
  p1 <- getRowPrice 1 ;;
  total <- getTotal ;;
  expect_Number_toBe total (Number_add p0 p1) ;;;
  n0 <- getRowName 0 ;;
  n1 <- getRowName 1 ;;
  expect_toContain (join2 n0 n1) (js "Sony vaio i5") ;;;
  expect_toContain (join2 n0 n1) (js "Sony vaio i7").

(** TC-03 on the cart page, from [cart.open()] on; the two seconds it waits
    after the deletion and its [console.log] lines leave the settled page
    as it is. *)
Definition TC03_cart (shop : Storefront) : M unit :=
  open ;;;
  beforeCount <- countItems ;;
  expect_toBeGreaterThanOrEqual beforeCount 2 ;;;
  p0 <- getRowPrice 0 ;;
  p1 <- getRowPrice 1 ;;
  totalBefore <- getTotal ;;
  expect_Number_toBe totalBefore (Number_add p0 p1) ;;;
  deleteByIndex shop 0 ;;;
  afterCount <- countItems ;;
  expect_toBe afterCount (beforeCount - 1) ;;;
  newTotal <- getTotal ;;
  remainingPrice <- getRowPrice 0 ;;
  expect_Number_toBe newTotal remainingPrice.

(** A free gift and a laptop in the cart. *)
Definition giftAndLaptop : World :=
  {| page :=
       {| rows :=
            [ {| nameCell := Some (js "Gift card"); priceCell := Some (js "0") |};
              {| nameCell := Some (js "Sony vaio i5"); priceCell := Some (js "790") |} ];
          totalp := Some (js "790") |};
     log := [] |}.

(** The two laptops of the tests in the cart, the later one listed first. *)
Definition twoLaptops : World :=
  {| page :=
       {| rows :=
            [ {| nameCell := Some (js "Sony vaio i7"); priceCell := Some (js "790") |};
              {| nameCell := Some (js "Sony vaio i5"); priceCell := Some (js "790") |} ];
          totalp := Some (js "1580") |};
     log := [] |}.

(** One laptop in the cart. *)
Definition oneLaptop : World :=
  {| page :=
       {| rows := [ {| nameCell := Some (js "Sony vaio i5"); priceCell := Some (js "790") |} ];
          totalp := Some (js "790") |};
     log := [] |}.

(** A storefront that ignores the Delete link: the listing stays as it is. *)
Definition ignoring : Storefront := {| deleted := fun _ p => p; detached := noRowAt |}.

(** * Properties *)

(** ** The model on some inputs *)

Example parseFloat_tenth :
  parseFloat (js "0.1") = S754_finite false 7205759403792794 (-56).
Proof. reflexivity. Qed.

Example parseFloat_longest_prefix :
  parseFloat (js "1.2.3") = parseFloat (js "1.2") /\
  parseFloat (js "12abc") = ofZ 12 /\
  parseFloat (js "  -2.5e1") = ofZ (-25).
Proof. repeat split; vm_compute; reflexivity. Qed.

Example parseFloat_no_number :
  parseFloat (js ".") = S754_nan /\ parseFloat (js "..5") = S754_nan /\
  parseFloat (js "") = S754_nan.
Proof. repeat split. Qed.

Example round_ties_towards_positive :
  JS.round (parseFloat (js "2.5")) = ofZ 3 /\
  JS.round (parseFloat (js "-2.5")) = ofZ (-2) /\
  JS.round (parseFloat (js "-0.2")) = S754_zero true.
Proof. repeat split; vm_compute; reflexivity. Qed.

Example parsePrice_second_dot : parsePrice (js "1.234.567") = ofZ 1.
Proof. vm_compute. reflexivity. Qed.

Example parsePrice_overflow :
  parsePrice (js "1" ++ repeat 48%N 400) = zero.
Proof. vm_compute. reflexivity. Qed.

Example trim_name : trim (js "  Sony vaio i5 ") = js "Sony vaio i5".
Proof. reflexivity. Qed.

(** Deleting the first of three rows: where the listing is drawn anew the
    wait succeeds, where the row is taken out in place the row that moves
    up keeps the locator attached. *)
Example deleteByIndex_first_row :
  deleteByIndex redrawn 0 laptops = (inr tt, afterDeletion redrawn 0 laptops) /\
  deleteByIndex inPlace 0 laptops =
    (inl (TimeoutError (RowAt 0)), afterDeletion inPlace 0 laptops).
Proof. split; reflexivity. Qed.

(** ** Characters *)

Lemma jsstring_eqb_eq (a b : jsstring) : jsstring_eqb a b = true <-> a = b.
Proof.
  revert b; induction a as [|x a IH]; intros [|y b]; simpl;
    try (split; [discriminate | congruence]); try tauto.
  rewrite andb_true_iff, N.eqb_eq, IH.
  split; [intros [-> ->]; reflexivity | intros H; inversion H; auto].
Qed.

Lemma keep_range (c : char16) :
  keep c = true -> (48 <= c <= 57 \/ c = 46)%N.
Proof.
  unfold keep, isDigit, isDot.
  rewrite orb_true_iff, andb_true_iff, !N.leb_le, N.eqb_eq. tauto.
Qed.

Lemma keep_not_whiteSpace (c : char16) : keep c = true -> isWhiteSpace c = false.
Proof.
  intros H; apply keep_range in H.
  unfold isWhiteSpace, whiteSpaceChars; simpl.
  repeat (apply orb_false_intro; [apply N.eqb_neq; lia|]).
  reflexivity.
Qed.

Lemma keep_not_sign (c : char16) :
  keep c = true -> (c =? 43)%N = false /\ (c =? 45)%N = false.
Proof.
  intros H; apply keep_range in H.
  split; apply N.eqb_neq; lia.
Qed.

Lemma stripNonNumeric_keep (text : jsstring) :
  Forall (fun c => keep c = true) (stripNonNumeric text).
Proof.
  apply Forall_forall; intros c Hc.
  apply filter_In in Hc; tauto.
Qed.

Lemma stripNonNumeric_fixed (s : jsstring) :
  Forall (fun c => keep c = true) s -> stripNonNumeric s = s.
Proof.
  induction 1 as [|c s Hc _ IH]; simpl; [reflexivity|].
  rewrite Hc; f_equal; exact IH.
Qed.

(** ** The sign of what [parseFloat] returns *)

Lemma binary_round_aux_notNegative (mx ex : Z) (lx : location) :
  notNegative (binary_round_aux prec emax false mx ex lx).
Proof.
  unfold binary_round_aux.
  destruct (shr_fexp prec emax mx ex lx) as [mrs' e'].
  destruct (shr_fexp prec emax _ e' loc_Exact) as [mrs'' e''].
  destruct (shr_m mrs''); [reflexivity | | exact I].
  destruct (e'' <=? emax - prec); reflexivity.
Qed.

Lemma nearest_notNegative (num den : positive) : notNegative (nearest false num den).
Proof.
  unfold nearest.
  destruct (SFdiv_core_binary prec emax (Zpos num) 0 (Zpos den) 0) as [[q e] l].
  apply binary_round_aux_notNegative.
Qed.

Lemma ofDecimal_notNegative (m : N) (e10 : Z) : notNegative (ofDecimal false m e10).
Proof.
  unfold ofDecimal.
  destruct m; [reflexivity|].
  destruct (0 <=? e10); apply nearest_notNegative.
Qed.

Lemma parseUnsigned_notNegative (s : jsstring) : notNegative (parseUnsigned false s).
Proof.
  unfold parseUnsigned.
  destruct (startsWith (js "Infinity") s); [reflexivity|].
  destruct (span isDigit s) as [ip r1].
  destruct (fractionPart r1) as [fp r2].
  destruct (ip ++ fp); [exact I|].
  apply ofDecimal_notNegative.
Qed.

(** A text of digits and dots has no sign for [parseFloat] to read. *)
Lemma parseFloat_kept (s : jsstring) :
  Forall (fun c => keep c = true) s -> parseFloat s = parseUnsigned false s.
Proof.
  intros [|c s' Hc _]; [reflexivity|].
  unfold parseFloat; cbn [dropWhile].
  rewrite (keep_not_whiteSpace c Hc).
  unfold splitSign.
  destruct (keep_not_sign c Hc) as [-> ->]. reflexivity.
Qed.

Lemma parseFloat_kept_notNegative (s : jsstring) :
  Forall (fun c => keep c = true) s -> notNegative (parseFloat s).
Proof.
  intros H; rewrite (parseFloat_kept s H); apply parseUnsigned_notNegative.
Qed.

(** ** Integers as Numbers *)

Lemma asInteger_ofPositive (s : bool) (p : positive) :
  asInteger (ofPositive s p) = Some (if s then Zneg p else Zpos p).
Proof.
  unfold ofPositive, asInteger.
  set (k := Z.max 0 (prec - Z.pos (digits2_pos p))).
  assert (Hk : 0 <= k) by apply Z.le_max_l.
  assert (Hp : 0 < 2 ^ k) by (apply Z.pow_pos_nonneg; lia).
  assert (Hm : Z.pos (Z.to_pos (Z.shiftl (Z.pos p) k)) = Z.pos p * 2 ^ k).
  { rewrite Z.shiftl_mul_pow2 by exact Hk. apply Z2Pos.id. nia. }
  assert (Hn : Z.neg (Z.to_pos (Z.shiftl (Z.pos p) k)) = Z.neg p * 2 ^ k).
  { rewrite <- !Pos2Z.opp_pos, Hm. ring. }
  destruct (Z.leb_spec 0 (- k)) as [H0|H0].
  - assert (k = 0) by lia.
    destruct s; [rewrite Hn | rewrite Hm]; f_equal; replace (- k) with 0 by lia;
      replace k with 0 by lia; simpl; lia.
  - rewrite Z.opp_involutive.
    destruct s; [rewrite Hn | rewrite Hm];
      rewrite Z.mod_mul, Z.div_mul by lia; reflexivity.
Qed.

Lemma asInteger_ofInteger (s : bool) (z : Z) : asInteger (ofInteger s z) = Some z.
Proof.
  destruct z; cbn [ofInteger];
    [reflexivity | apply (asInteger_ofPositive false) | apply (asInteger_ofPositive true)].
Qed.

Lemma ofInteger_notNegative (z : Z) : 0 <= z -> notNegative (ofInteger false z).
Proof.
  destruct z; cbn [ofInteger]; [reflexivity | reflexivity | lia].
Qed.

Lemma notNegative_asInteger (x : Number) (z : Z) :
  notNegative x -> asInteger x = Some z -> 0 <= z.
Proof.
  destruct x as [s|s| |s m e]; cbn [notNegative asInteger]; try discriminate.
  - intros _ [= <-]; lia.
  - intros ->.
    destruct (Z.leb_spec 0 e) as [He|He].
    + intros H. assert (Hz : z = Z.pos m * 2 ^ e) by congruence.
      rewrite Hz. apply Z.mul_nonneg_nonneg; [lia | apply Z.pow_nonneg; lia].
    + destruct (_ =? 0); [|discriminate].
      intros H. assert (Hz : z = Z.pos m / 2 ^ (- e)) by congruence.
      rewrite Hz. apply Z.div_pos; [lia|].
      apply Z.pow_pos_nonneg; lia.
Qed.

(** ** [Math.round] on a Number that is not negative *)

Lemma Qfloor_add_half (n : Z) (d : positive) :
  Qfloor ((n # d) + (1 # 2)) = (2 * n + Z.pos d) / (2 * Z.pos d).
Proof.
  unfold Qfloor, Qplus; cbn [Qnum Qden].
  rewrite Pos2Z.inj_mul. f_equal; ring.
Qed.

Lemma round_finite_notNegative (m : positive) (e : Z) :
  notNegative (JS.round (S754_finite false m e)).
Proof.
  cbn [JS.round].
  destruct (0 <=? e); [reflexivity|].
  apply ofInteger_notNegative, Z.shiftr_nonneg.
  assert (0 <= 2 ^ (- e)) by (apply Z.pow_nonneg; lia). lia.
Qed.

Lemma round_notNegative (x : Number) : notNegative x -> notNegative (JS.round x).
Proof.
  destruct x as [s|s| |s m e]; try (intros H; exact H).
  cbn [notNegative]; intros ->. apply round_finite_notNegative.
Qed.

(** On a finite Number that is not negative, [Math.round] is the floor of
    the exact value plus one half. *)
Lemma round_finite_value (m : positive) (e : Z) :
  exists v : Q,
    valueOf (S754_finite false m e) = Some v /\
    Qle_bool 0 v = true /\
    asInteger (JS.round (S754_finite false m e)) = Some (Qfloor (v + (1 # 2))).
Proof.
  cbn [valueOf JS.round asInteger].
  destruct (Z.leb_spec 0 e) as [He|He].
  - exists (inject_Z (Z.pos m * 2 ^ e)); split; [reflexivity|]; split.
    + unfold Qle_bool, inject_Z; cbn [Qnum Qden]. apply Z.leb_le.
      assert (0 <= 2 ^ e) by (apply Z.pow_nonneg; lia). nia.
    + cbn [asInteger]. destruct (Z.leb_spec 0 e) as [_|]; [|lia].
      unfold inject_Z. rewrite Qfloor_add_half. f_equal.
      apply Z.div_unique with (r := 1); lia.
  - set (k := - e) in *.
    assert (Hp : 0 < 2 ^ k) by (apply Z.pow_pos_nonneg; lia).
    exists (Z.pos m # Z.to_pos (2 ^ k)); split; [reflexivity|]; split.
    + unfold Qle_bool; cbn [Qnum Qden]. apply Z.leb_le. lia.
    + rewrite asInteger_ofInteger, Qfloor_add_half. f_equal.
      rewrite Z.shiftr_div_pow2 by lia.
      rewrite Z2Pos.id by exact Hp.
      replace (1 - e) with (Z.succ k) by lia.
      rewrite Z.pow_succ_r by lia. reflexivity.
Qed.

(** ** [parsePrice] and the normalizer of the specification *)

Lemma parseFloat_zero_literal : parseFloat (js "0") = zero.
Proof. reflexivity. Qed.

(** [parsePrice] returns the integer the specification's normalizer gives. *)
Lemma parsePrice_asInteger (text : jsstring) :
  asInteger (parsePrice text) = Some (normalize text).
Proof.
  unfold parsePrice, normalize.
  change (filter (fun c => isDigit c || isDot c) text) with (stripNonNumeric text).
  pose proof (stripNonNumeric_keep text) as Hk.
  destruct (stripNonNumeric text) as [|c d] eqn:Hd.
  - reflexivity.
  - cbn [orElse].
    pose proof (parseFloat_kept_notNegative _ Hk) as Hs.
    destruct (parseFloat (c :: d)) as [s|s| |s m e]; try reflexivity.
    cbn [notNegative] in Hs; subst s. cbn [isFinite].
    destruct (round_finite_value m e) as (v & -> & Hv & ->).
    unfold roundHalfAway. rewrite Hv. reflexivity.
Qed.

Lemma parsePrice_notNegative (text : jsstring) : notNegative (parsePrice text).
Proof.
  unfold parsePrice. apply round_notNegative.
  destruct (stripNonNumeric text) as [|c d] eqn:Hd; [reflexivity|].
  cbn [orElse].
  pose proof (parseFloat_kept_notNegative _ (eq_ind _ _ (stripNonNumeric_keep text) _ Hd)) as Hs.
  destruct (parseFloat (c :: d)); cbn [isFinite]; try exact Hs; reflexivity.
Qed.

(** A parse that yields no finite number degrades to zero. *)
Lemma parsePrice_degrades (text : jsstring) :
  isFinite (parseFloat (stripNonNumeric text)) = false -> parsePrice text = zero.
Proof.
  unfold parsePrice.
  destruct (stripNonNumeric text) as [|c d]; [reflexivity|].
  cbn [orElse]. intros ->. reflexivity.
Qed.


(** ** The page object on the settled page *)



Section CartPageFacts.

Variable shop : Storefront.

Lemma open_run (w : World) :
  open w = (inr tt, {| page := page w; log := log w ++ [ClickCart] |}).
Proof.
  unfold open, bind, act, rows_count, expect_first_visible, ret; cbn [page log].
  destruct (rows (page w)) as [|r l] eqn:Hw; cbn; [reflexivity|].
  rewrite Hw. reflexivity.
Qed.

Lemma getRowName_present (i : nat) (r : Row) (w : World) :
  nth_error (rows (page w)) i = Some r -> getRowName i w = (inr (rowName r), w).
Proof.
  intros H. unfold getRowName, bind, cell_textContent. rewrite H. reflexivity.
Qed.

Lemma getRowName_absent (i : nat) (w : World) :
  (List.length (rows (page w)) <= i)%nat ->
  getRowName i w = (inl (TimeoutError (Cell i Title)), w).
Proof.
  intros H. apply nth_error_None in H.
  unfold getRowName, bind, cell_textContent. rewrite H. reflexivity.
Qed.

Lemma getRowPrice_present (i : nat) (r : Row) (w : World) :
  nth_error (rows (page w)) i = Some r -> getRowPrice i w = (inr (rowPrice r), w).
Proof.
  intros H. unfold getRowPrice, bind, cell_textContent. rewrite H. reflexivity.
Qed.


Lemma deleteByIndex_absent (i : nat) (w : World) :
  (List.length (rows (page w)) <= i)%nat ->
  deleteByIndex shop i w = (inl (TimeoutError (DeleteLink i)), w).
Proof.
  intros H. apply nth_error_None in H.
  unfold deleteByIndex, bind, delete_click. rewrite H. reflexivity.
Qed.

Lemma deleteByIndex_present (i : nat) (w : World) :
  (i < List.length (rows (page w)))%nat ->
  deleteByIndex shop i w =
    (if detached shop i (deleted shop i (page w)) then inr tt
     else inl (TimeoutError (RowAt i)),
     afterDeletion shop i w).
Proof.
  intros H. apply nth_error_Some in H.
  unfold deleteByIndex, bind, delete_click, afterDeletion.
  destruct (nth_error (rows (page w)) i) as [r|]; [clear H | congruence].
  unfold waitFor_detached, bind, act; cbn [page log].
  rewrite <- app_assoc; cbn [app].
  destruct (detached shop i (deleted shop i (page w))); reflexivity.
Qed.

(** A call of [deleteByIndex] leaves the world as it was, or asks for one
    deletion and waits for it. *)
Lemma deleteByIndex_world (i : nat) (w : World) :
  snd (deleteByIndex shop i w) = w \/
  snd (deleteByIndex shop i w) = afterDeletion shop i w.
Proof.
  destruct (Nat.le_gt_cases (List.length (rows (page w))) i) as [H|H].
  - left. rewrite deleteByIndex_absent by exact H. reflexivity.
  - right. rewrite deleteByIndex_present by exact H. reflexivity.
Qed.

(** *** [deleteByName] *)

Lemma deleteByName_loop_none (name : jsstring) (k : nat) :
  forall (i : nat) (w : World),
    (i + k <= List.length (rows (page w)))%nat ->
    (forall j r, (i <= j < i + k)%nat ->
                 nth_error (rows (page w)) j = Some r -> rowName r <> name) ->
    deleteByName_loop shop name k i w = (inl (Error (notFoundMessage name)), w).
Proof.
  induction k as [|k IH]; intros i w Hlen Hno; [reflexivity|].
  cbn [deleteByName_loop]. unfold bind at 1.
  destruct (nth_error (rows (page w)) i) as [r|] eqn:Hr;
    [|apply nth_error_None in Hr; lia].
  rewrite (getRowName_present i r w Hr).
  destruct (jsstring_eqb (rowName r) name) eqn:He.
  - apply jsstring_eqb_eq in He. exfalso. apply (Hno i r); [lia | exact Hr | exact He].
  - apply IH; [lia|]. intros j r' Hj. apply Hno; lia.
Qed.

Lemma deleteByName_loop_first (name : jsstring) (k : nat) :
  forall (i j : nat) (r : Row) (w : World),
    (i <= j < i + k)%nat ->
    nth_error (rows (page w)) j = Some r -> rowName r = name ->
    (forall j' r', (i <= j' < j)%nat ->
                   nth_error (rows (page w)) j' = Some r' -> rowName r' <> name) ->
    deleteByName_loop shop name k i w = deleteByIndex shop j w.
Proof.
  induction k as [|k IH]; intros i j r w Hj Hr Hn Hno; [lia|].
  cbn [deleteByName_loop]. unfold bind at 1.
  destruct (Nat.eq_dec i j) as [->|Hij].
  - rewrite (getRowName_present j r w Hr), Hn.
    rewrite (proj2 (jsstring_eqb_eq name name) eq_refl). reflexivity.
  - destruct (nth_error (rows (page w)) i) as [r'|] eqn:Hr'.
    + rewrite (getRowName_present i r' w Hr').
      destruct (jsstring_eqb (rowName r') name) eqn:He.
      * apply jsstring_eqb_eq in He. exfalso.
        apply (Hno i r'); [lia | exact Hr' | exact He].
      * apply (IH (S i) j r w); [lia | exact Hr | exact Hn |].
        intros j' r'' Hj'. apply Hno; lia.
    + apply nth_error_None in Hr'.
      assert (j < List.length (rows (page w)))%nat
        by (apply nth_error_Some; congruence).
      lia.
Qed.

Lemma deleteByName_loop_world (name : jsstring) (k : nat) :
  forall (i : nat) (w : World),
    snd (deleteByName_loop shop name k i w) = w \/
    exists j, snd (deleteByName_loop shop name k i w) = afterDeletion shop j w.
Proof.
  induction k as [|k IH]; intros i w; [left; reflexivity|].
  cbn [deleteByName_loop]. unfold bind.
  destruct (nth_error (rows (page w)) i) as [r|] eqn:Hr.
  - rewrite (getRowName_present i r w Hr).
    destruct (jsstring_eqb (rowName r) name).
    + destruct (deleteByIndex_world i w) as [H|H]; [left | right; exists i]; exact H.
    + apply IH.
  - apply nth_error_None in Hr.
    rewrite (getRowName_absent i w Hr). left; reflexivity.
Qed.

(** *** [clearCart] *)

Lemma deletionsFromLast_S (k : nat) :
  deletionsFromLast (S k) = ClickDelete k :: WaitDetached k :: deletionsFromLast k.
Proof.
  unfold deletionsFromLast.
  rewrite seq_S, rev_app_distr. reflexivity.
Qed.



(** Where each deletion takes one row off the listing, and the wait for a
    locator that resolves to nothing succeeds. *)
Hypothesis deleted_one :
  forall i p, (i < List.length (rows p))%nat ->
              List.length (rows (deleted shop i p)) = (List.length (rows p) - 1)%nat.

Hypothesis detached_none :
  forall i q, nth_error (rows q) i = None -> detached shop i q = true.



End CartPageFacts.

(** ** Whole numbers are read exactly *)

Lemma digits2_pos_bounds (p : positive) :
  2 ^ (Z.pos (digits2_pos p) - 1) <= Z.pos p < 2 ^ Z.pos (digits2_pos p).
Proof.
  induction p as [p IH|p IH|]; cbn [digits2_pos];
    [change (Z.pos p~1) with (2 * Z.pos p + 1) | change (Z.pos p~0) with (2 * Z.pos p) | cbn; lia];
    rewrite Pos2Z.inj_succ;
    replace (Z.succ (Z.pos (digits2_pos p)) - 1) with (Z.succ (Z.pos (digits2_pos p) - 1)) by lia;
    rewrite !Z.pow_succ_r by lia;
    generalize dependent (2 ^ (Z.pos (digits2_pos p) - 1));
    generalize dependent (2 ^ Z.pos (digits2_pos p)); intros; lia.
Qed.

Lemma digits2_pos_unique (p : positive) (d : Z) :
  2 ^ (d - 1) <= Z.pos p < 2 ^ d -> Z.pos (digits2_pos p) = d.
Proof.
  intros [Hl Hu]. pose proof (digits2_pos_bounds p) as [Bl Bu].
  set (d' := Z.pos (digits2_pos p)) in *.
  assert (0 < d') by (subst d'; lia).
  assert (0 < d).
  { destruct (Z.lt_ge_cases 0 d) as [|Hd]; [assumption|].
    destruct (Z.eq_dec d 0) as [->|]; [cbn in Hu; lia|].
    rewrite Z.pow_neg_r in Hu by lia. lia. }
  destruct (Z.lt_trichotomy d d') as [Hlt|[Heq|Hgt]]; [|exact (eq_sym Heq)|].
  - assert (2 ^ d <= 2 ^ (d' - 1)) by (apply Z.pow_le_mono_r; lia). lia.
  - assert (2 ^ d' <= 2 ^ (d - 1)) by (apply Z.pow_le_mono_r; lia). lia.
Qed.

Ltac stdZ :=
  change IntDef.Z.max with Z.max in *; change IntDef.Z.min with Z.min in *;
  change IntDef.Z.sub with Z.sub in *; change IntDef.Z.add with Z.add in *;
  change IntDef.Z.mul with Z.mul in *; change IntDef.Z.opp with Z.opp in *;
  change IntDef.Z.leb with Z.leb in *; change IntDef.Z.eqb with Z.eqb in *;
  change IntDef.Z.shiftl with Z.shiftl in *;
  change IntDef.Z.div_eucl with Z.div_eucl in *.

Lemma div_eucl_1 (a : Z) : Z.div_eucl a 1 = (a, 0).
Proof.
  pose proof (Z.div_1_r a) as Hq. pose proof (Z.mod_1_r a) as Hr.
  unfold Z.div, Z.modulo in *.
  destruct (Z.div_eucl a 1) as [q r]. congruence.
Qed.

Lemma nearest_integer (p : positive) :
  Z.pos (digits2_pos p) <= prec -> nearest false p 1 = ofPositive false p.
Proof.
  intros Hd. unfold nearest, ofPositive, prec in *.
  pose proof (digits2_pos_bounds p) as Hb.
  set (d := Z.pos (digits2_pos p)) in *.
  assert (Hd1 : 1 <= d) by (subst d; lia).
  rewrite Z.max_r by lia.
  set (k := 53 - d).
  assert (Hk : 0 <= k) by lia.
  assert (Hpk : 0 < 2 ^ k) by (apply Z.pow_pos_nonneg; lia).
  set (p' := Z.to_pos (Z.shiftl (Z.pos p) k)).
  assert (Hp' : Z.pos p' = Z.pos p * 2 ^ k).
  { subst p'. rewrite Z.shiftl_mul_pow2 by lia. apply Z2Pos.id. nia. }
  assert (Hdiv : SFdiv_core_binary 53 emax (Z.pos p) 0 1 0 = (Z.pos p'~0, d - 54, loc_Exact)).
  { unfold SFdiv_core_binary. cbn [Zdigits2 digits2_pos]. fold d.
    stdZ.
    assert (He : Z.min (fexp 53 emax (d + 0 - (1 + 0))) (0 - 0) = d - 54).
    { unfold fexp, emin, emax. stdZ. lia. }
    rewrite He.
    assert (Hs : Z.shiftl (Z.pos p) (0 - 0 - (d - 54)) = Z.pos p'~0).
    { rewrite Z.shiftl_mul_pow2 by lia.
      replace (0 - 0 - (d - 54)) with (Z.succ k) by lia.
      rewrite Z.pow_succ_r by lia.
      change (Z.pos p'~0) with (2 * Z.pos p'). rewrite Hp'. ring. }
    destruct (0 - 0 - (d - 54)) eqn:Hz; [lia | | lia].
    rewrite Hs, div_eucl_1. reflexivity. }
  rewrite Hdiv.
  assert (Hd' : Z.pos (digits2_pos p') = 53).
  { apply digits2_pos_unique. rewrite Hp'.
    assert (E1 : 2 ^ (53 - 1) = 2 ^ (d - 1) * 2 ^ k)
      by (rewrite <- Z.pow_add_r by lia; f_equal; lia).
    assert (E2 : 2 ^ 53 = 2 ^ d * 2 ^ k)
      by (rewrite <- Z.pow_add_r by lia; f_equal; lia).
    rewrite E1, E2. clear E1 E2 Hp'.
    generalize dependent (2 ^ (d - 1)). generalize dependent (2 ^ d).
    generalize dependent (2 ^ k). intros; nia. }
  unfold binary_round_aux, shr_fexp.
  cbn [Zdigits2 digits2_pos shr_record_of_loc].
  rewrite Pos2Z.inj_succ, Hd'.
  assert (H1 : fexp 53 emax (Z.succ 53 + (d - 54)) - (d - 54) = 1).
  { unfold fexp, emin, emax. stdZ. lia. }
  stdZ. rewrite H1.
  cbn [shr iter_pos shr_1 shr_m loc_of_shr_record round_nearest_even Zdigits2 orb].
  rewrite Hd'.
  assert (H2 : fexp 53 emax (53 + (d - 54 + 1)) - (d - 54 + 1) = 0).
  { unfold fexp, emin, emax. stdZ. lia. }
  rewrite H2. cbn [shr shr_m].
  replace (d - 54 + 1 <=? emax - 53) with true
    by (symmetry; apply Z.leb_le; unfold emax; lia).
  f_equal. lia.
Qed.

Lemma span_all {A} (f : A -> bool) (l : list A) :
  Forall (fun x => f x = true) l -> span f l = (l, []).
Proof.
  induction 1 as [|x l Hx _ IH]; cbn [span]; [reflexivity|].
  rewrite Hx, IH. reflexivity.
Qed.

Lemma isDigit_keep (c : char16) : isDigit c = true -> keep c = true.
Proof. unfold keep. intros ->. reflexivity. Qed.

Lemma parseUnsigned_digits (neg : bool) (ds : jsstring) :
  ds <> [] -> Forall (fun c => isDigit c = true) ds ->
  parseUnsigned neg ds = ofDecimal neg (digitsValue ds) 0.
Proof.
  intros Hne Hds. unfold parseUnsigned.
  destruct ds as [|c ds']; [congruence|].
  assert (Hc : isDigit c = true) by (inversion Hds; assumption).
  replace (startsWith (js "Infinity") (c :: ds')) with false.
  2:{ change (js "Infinity") with (73%N :: js "nfinity"). cbn [startsWith].
      replace (73 =? c)%N with false; [reflexivity|].
      symmetry. apply N.eqb_neq.
      unfold isDigit in Hc. rewrite andb_true_iff, !N.leb_le in Hc. lia. }
  rewrite (span_all isDigit _ Hds). cbn [fractionPart exponentPart List.length].
  rewrite app_nil_r. reflexivity.
Qed.

Lemma ofDecimal_integer (n : N) :
  Z.of_N n < 2 ^ prec -> ofDecimal false n 0 = ofInteger false (Z.of_N n).
Proof.
  destruct n as [|p]; [reflexivity|].
  cbn [Z.of_N ofInteger]. intros Hp. unfold ofDecimal.
  change (0 <=? 0) with true. cbv iota.
  change (Z.to_pos (10 ^ 0)) with 1%positive. rewrite Pos.mul_1_r.
  apply nearest_integer.
  pose proof (digits2_pos_bounds p) as [Hl _].
  destruct (Z.le_gt_cases (Z.pos (digits2_pos p)) prec) as [H|H]; [exact H|].
  assert (2 ^ prec <= 2 ^ (Z.pos (digits2_pos p) - 1))
    by (apply Z.pow_le_mono_r; unfold prec in *; lia).
  lia.
Qed.

(** [Math.round] leaves a Number that denotes an integer at that integer. *)
Lemma asInteger_round (x : Number) (z : Z) :
  asInteger x = Some z -> asInteger (JS.round x) = Some z.
Proof.
  destruct x as [s|s| |s m e]; try (intros H; exact H).
  cbn [asInteger JS.round].
  destruct (Z.leb_spec 0 e) as [He|He].
  { intros H. cbn [asInteger]. destruct (Z.leb_spec 0 e); [exact H | lia]. }
  set (v := if s then Z.neg m else Z.pos m).
  set (k := - e). assert (Hp : 0 < 2 ^ k) by (apply Z.pow_pos_nonneg; lia).
  destruct (Z.eqb_spec (v mod 2 ^ k) 0) as [Hm|]; [|discriminate].
  intros H. assert (Hz : z = v / 2 ^ k) by congruence.
  rewrite asInteger_ofInteger. f_equal.
  rewrite Z.shiftr_div_pow2 by lia.
  replace (1 - e) with (Z.succ k) by lia. rewrite Z.pow_succ_r by lia.
  pose proof (Z.div_mod v (2 ^ k)) as Hv. rewrite Hm, <- Hz in Hv.
  symmetry. apply Z.div_unique with (r := 2 ^ k); lia.
Qed.

(** A text whose digits, once everything else is stripped, spell [n]:
    a whole number with no decimal point, below [2^53]. *)
Lemma parsePrice_wholeNumber (text : jsstring) (n : Z) :
  wholeNumber text n -> asInteger (parsePrice text) = Some n.
Proof.
  intros (Hne & Hds & Hn & Hlt). unfold parsePrice.
  destruct (stripNonNumeric text) as [|c ds] eqn:Hs; [congruence|].
  cbn [orElse].
  rewrite parseFloat_kept
    by (eapply Forall_impl; [|exact Hds]; intros a Ha; apply isDigit_keep, Ha).
  rewrite parseUnsigned_digits by assumption.
  rewrite ofDecimal_integer by (rewrite Hn; exact Hlt).
  rewrite Hn.
  assert (Hf : isFinite (ofInteger false n) = true) by (destruct n; reflexivity).
  rewrite Hf. apply asInteger_round, asInteger_ofInteger.
Qed.

(** ** Snapshots *)

Lemma getTotal_run (w : World) :
  getTotal w = (inr (parsePrice (nullish (totalp (page w)) (js "0"))), w).
Proof. reflexivity. Qed.





Lemma asInteger_isFinite (x : Number) (z : Z) : asInteger x = Some z -> isFinite x = true.
Proof. destruct x; [reflexivity | discriminate | discriminate | reflexivity]. Qed.


(** * The claims of the specification *)

(** ** The cart invariant *)




(** ** The price normalizer *)



(** C3: the five examples of the specification. *)
Theorem parsePrice_examples :
  parsePrice (js "$790") = ofZ 790 /\
  parsePrice (js "790.50") = ofZ 791 /\
  parsePrice (js "$1,234.56") = ofZ 1235 /\
  parsePrice (js "") = ofZ 0 /\
  parsePrice (js "free") = ofZ 0.
Proof. repeat split; vm_compute; reflexivity. Qed.

(** C4: for every input [parsePrice] returns a finite Number that denotes
    an integer, and zero when the stripped text does not parse to a finite
    number. *)
Theorem parsePrice_total (text : jsstring) :
  (exists z : Z, asInteger (parsePrice text) = Some z) /\
  isFinite (parsePrice text) = true /\
  (isFinite (parseFloat (stripNonNumeric text)) = false -> parsePrice text = zero).
Proof.
  pose proof (parsePrice_asInteger text) as H.
  split; [eexists; exact H|].
  split; [exact (asInteger_isFinite _ _ H) | apply parsePrice_degrades].
Qed.

Lemma parsePrice_total_witness :
  (exists z : Z, asInteger (parsePrice (js "free")) = Some z) /\
  isFinite (parsePrice (js "free")) = true /\
  parsePrice (js "free") = zero.
Proof.
  destruct (parsePrice_total (js "free")) as (H1 & H2 & H3).
  split; [exact H1|]. split; [exact H2|]. apply H3. reflexivity.
Defined.

(** C9: [parsePrice] is a function of its argument alone: equal inputs
    give equal outputs, and even inputs that agree on their digits and dots
    do; the methods that call it leave the world as it was. *)
Theorem parsePrice_deterministic (t1 t2 : jsstring) :
  (t1 = t2 -> parsePrice t1 = parsePrice t2) /\
  (stripNonNumeric t1 = stripNonNumeric t2 -> parsePrice t1 = parsePrice t2) /\
  (forall (w : World) (i : nat), snd (getTotal w) = w /\ snd (getRowPrice i w) = w).
Proof.
  split; [intros ->; reflexivity|].
  split; [unfold parsePrice; intros ->; reflexivity|].
  intros w i. split; [reflexivity|].
  unfold getRowPrice, bind, cell_textContent.
  destruct (nth_error (rows (page w)) i); reflexivity.
Qed.

Lemma parsePrice_deterministic_witness :
  parsePrice (js "$790") = parsePrice (js "$790") /\
  parsePrice (js "$790") = parsePrice (js "790 USD").
Proof.
  split.
  - apply (proj1 (parsePrice_deterministic (js "$790") (js "$790"))). reflexivity.
  - apply (proj1 (proj2 (parsePrice_deterministic (js "$790") (js "790 USD")))).
    reflexivity.
Defined.

(** C10: no minus sign survives the stripping, and the Number returned is
    never negative: its sign bit is clear and the integer it denotes is at
    least zero. *)
Theorem parsePrice_never_negative (text : jsstring) :
  ~ In 45%N (stripNonNumeric text) /\
  notNegative (parsePrice text) /\
  exists z : Z, asInteger (parsePrice text) = Some z /\ 0 <= z.
Proof.
  split; [|split].
  - intros H. apply filter_In in H. destruct H as [_ H]. discriminate H.
  - apply parsePrice_notNegative.
  - exists (normalize text). split; [apply parsePrice_asInteger|].
    apply (notNegative_asInteger (parsePrice text));
      [apply parsePrice_notNegative | apply parsePrice_asInteger].
Qed.

(** ** The cart operations *)



(** C6: [deleteByName] throws its not-found [Error] and leaves the world
    as it was when no row has the name (the trimmed text of its title
    cell); when a row has it, it does what [deleteByIndex] does at the first
    such position, one deletion and its wait; and in no case does it ask for
    more than one deletion. *)
Theorem deleteByName_first_match (shop : Storefront) (name : jsstring) (w : World) :
  ((forall r, In r (rows (page w)) -> rowName r <> name) ->
   deleteByName shop name w = (inl (Error (notFoundMessage name)), w)) /\
  (forall j r,
      nth_error (rows (page w)) j = Some r -> rowName r = name ->
      (forall j' r', (j' < j)%nat ->
                     nth_error (rows (page w)) j' = Some r' -> rowName r' <> name) ->
      deleteByName shop name w = deleteByIndex shop j w /\
      snd (deleteByName shop name w) = afterDeletion shop j w) /\
  (snd (deleteByName shop name w) = w \/
   exists j, snd (deleteByName shop name w) = afterDeletion shop j w).
Proof.
  unfold deleteByName, bind, countItems, rows_count.
  split; [|split].
  - intros Hno. apply deleteByName_loop_none; [cbn; lia|].
    intros j r _ Hr. apply Hno. eapply nth_error_In, Hr.
  - intros j r Hr Hn Hbefore.
    assert (Hj : (j < List.length (rows (page w)))%nat)
      by (apply nth_error_Some; congruence).
    assert (E : deleteByName_loop shop name (List.length (rows (page w))) 0 w =
                deleteByIndex shop j w).
    { apply (deleteByName_loop_first shop name _ 0%nat j r w);
        [lia | exact Hr | exact Hn |].
      intros j' r' Hj'. apply Hbefore; lia. }
    split; [exact E|].
    rewrite E, deleteByIndex_present by exact Hj. reflexivity.
  - apply deleteByName_loop_world.
Qed.

Lemma deleteByName_first_match_witness :
  deleteByName inPlace (js "Lumia") laptops =
    (inl (Error (notFoundMessage (js "Lumia"))), laptops) /\
  deleteByName inPlace (js "Sony vaio i7") laptops = deleteByIndex inPlace 1 laptops /\
  snd (deleteByName inPlace (js "Sony vaio i7") laptops) = afterDeletion inPlace 1 laptops.
Proof.
  split.
  - apply (proj1 (deleteByName_first_match inPlace (js "Lumia") laptops)).
    intros r [<-|[<-|[<-|[]]]]; discriminate.
  - apply (proj1 (proj2 (deleteByName_first_match inPlace (js "Sony vaio i7") laptops))
             1%nat {| nameCell := Some (js "Sony vaio i7");
                      priceCell := Some (js "790") |}).
    + reflexivity.
    + reflexivity.
    + intros [|j'] r' Hj' Hr'; [|lia]. injection Hr' as <-. discriminate.
Defined.





(** * Further properties of the code *)

(** ** [parsePrice] on texts of a given shape *)

Lemma keep_not_Infinity (c : char16) (s : jsstring) :
  keep c = true -> startsWith (js "Infinity") (c :: s) = false.
Proof.
  intros H. apply keep_range in H.
  change (js "Infinity") with (73%N :: js "nfinity"). cbn [startsWith].
  replace (73 =? c)%N with false; [reflexivity|].
  symmetry. apply N.eqb_neq. lia.
Qed.

Lemma span_stop {A} (f : A -> bool) (a : list A) (c : A) (r : list A) :
  Forall (fun x => f x = true) a -> f c = false -> span f (a ++ c :: r) = (a, c :: r).
Proof.
  intros Ha Hc. induction Ha as [|x a Hx _ IH]; cbn [app span].
  - rewrite Hc. reflexivity.
  - rewrite Hx, IH. reflexivity.
Qed.

Lemma round_ofInteger (z : Z) : 0 <= z -> JS.round (ofInteger false z) = ofInteger false z.
Proof.
  destruct z as [|p|p]; [reflexivity | intros _ | lia].
  cbn [ofInteger]. unfold ofPositive.
  set (k := Z.max 0 (prec - Z.pos (digits2_pos p))).
  assert (Hk : 0 <= k) by apply Z.le_max_l.
  assert (Hp : 0 < 2 ^ k) by (apply Z.pow_pos_nonneg; lia).
  assert (Hm : Z.pos (Z.to_pos (Z.shiftl (Z.pos p) k)) = Z.pos p * 2 ^ k).
  { rewrite Z.shiftl_mul_pow2 by exact Hk. apply Z2Pos.id. nia. }
  cbn [JS.round].
  destruct (Z.leb_spec 0 (- k)) as [H0|H0]; [reflexivity|].
  rewrite Hm, Z.shiftr_div_pow2, Z.opp_involutive by lia.
  replace (1 - - k) with (Z.succ k) by lia. rewrite Z.pow_succ_r by lia.
  replace ((2 * (Z.pos p * 2 ^ k) + 2 ^ k) / (2 * 2 ^ k)) with (Z.pos p);
    [reflexivity|].
  apply Z.div_unique with (r := 2 ^ k); lia.
Qed.

Lemma parsePrice_wholeNumber_Number (text : jsstring) (n : Z) :
  wholeNumber text n -> parsePrice text = ofInteger false n.
Proof.
  intros (Hne & Hds & Hn & Hlt). unfold parsePrice.
  destruct (stripNonNumeric text) as [|c ds] eqn:Hs; [congruence|].
  cbn [orElse].
  rewrite parseFloat_kept
    by (eapply Forall_impl; [|exact Hds]; intros a Ha; apply isDigit_keep, Ha).
  rewrite parseUnsigned_digits by assumption.
  rewrite ofDecimal_integer by (rewrite Hn; exact Hlt).
  rewrite Hn.
  assert (H0 : 0 <= n) by (rewrite <- Hn; apply N2Z.is_nonneg).
  assert (Hf : isFinite (ofInteger false n) = true) by (destruct n; reflexivity).
  rewrite Hf. apply round_ofInteger, H0.
Qed.

Lemma stripNonNumeric_app (a b : jsstring) :
  stripNonNumeric (a ++ b) = stripNonNumeric a ++ stripNonNumeric b.
Proof. apply filter_app. Qed.

Lemma stripNonNumeric_none (junk : jsstring) :
  Forall (fun c => keep c = false) junk -> stripNonNumeric junk = [].
Proof.
  induction 1 as [|c l Hc _ IH]; cbn; [reflexivity|].
  rewrite Hc. exact IH.
Qed.

(** What [parseFloat] makes of a run of dots. *)
Lemma parseUnsigned_dots (c : char16) (s : jsstring) :
  Forall (fun c => isDot c = true) (c :: s) -> parseUnsigned false (c :: s) = S754_nan.
Proof.
  intros H. inversion H as [|c' s' Hc Hs]; subst.
  apply N.eqb_eq in Hc; subst c. unfold parseUnsigned.
  rewrite keep_not_Infinity by reflexivity.
  cbn [span]. change (isDigit 46%N) with false. cbv iota.
  cbn [fractionPart]. change (isDot 46%N) with true. cbv iota.
  destruct Hs as [|d s Hd _]; [reflexivity|].
  apply N.eqb_eq in Hd; subst d.
  cbn [span]. change (isDigit 46%N) with false. reflexivity.
Qed.

Lemma parseUnsigned_second_dot (a b rest : jsstring) :
  Forall (fun c => isDigit c = true) a -> Forall (fun c => isDigit c = true) b ->
  parseUnsigned false (a ++ 46%N :: b ++ 46%N :: rest) =
  parseUnsigned false (a ++ 46%N :: b).
Proof.
  intros Ha Hb. unfold parseUnsigned.
  assert (HI : forall x, startsWith (js "Infinity") (a ++ 46%N :: x) = false).
  { intros x. destruct Ha as [|c a Hc _]; cbn [app];
      apply keep_not_Infinity; [reflexivity | apply isDigit_keep, Hc]. }
  rewrite !HI.
  rewrite !(span_stop isDigit a 46%N) by (assumption || reflexivity).
  cbn [fractionPart]. change (isDot 46%N) with true. cbv iota.
  rewrite (span_stop isDigit b 46%N) by (assumption || reflexivity).
  rewrite (span_all isDigit b Hb).
  reflexivity.
Qed.

(** ** Trimmed names *)

Lemma dropWhile_head {A} (f : A -> bool) (l : list A) (x : A) (r : list A) :
  dropWhile f l = x :: r -> f x = false.
Proof.
  induction l as [|a l IH]; cbn [dropWhile]; [discriminate|].
  destruct (f a) eqn:Ha; [exact IH|].
  intros [= <- _]. exact Ha.
Qed.

Lemma dropWhile_suffix {A} (f : A -> bool) (l : list A) :
  exists p, l = p ++ dropWhile f l.
Proof.
  induction l as [|a l [p IH]]; cbn [dropWhile]; [exists []; reflexivity|].
  destruct (f a); [exists (a :: p); cbn; f_equal; exact IH | exists []; reflexivity].
Qed.

Lemma dropWhile_fixed {A} (f : A -> bool) (l : list A) :
  match l with [] => True | x :: _ => f x = false end -> dropWhile f l = l.
Proof. destruct l as [|x l]; cbn; [reflexivity|]. intros ->. reflexivity. Qed.

Lemma trim_first (s : jsstring) (c : char16) (r : jsstring) :
  trim s = c :: r -> isWhiteSpace c = false.
Proof.
  unfold trim. intros H.
  destruct (dropWhile_suffix isWhiteSpace (rev (dropWhile isWhiteSpace s))) as [p Hp].
  apply (f_equal (@rev char16)) in Hp.
  rewrite rev_involutive, rev_app_distr, H in Hp.
  apply (dropWhile_head isWhiteSpace s c (r ++ rev p)). exact Hp.
Qed.

Lemma trim_last (s : jsstring) (init : jsstring) (c : char16) :
  trim s = init ++ [c] -> isWhiteSpace c = false.
Proof.
  unfold trim. intros H.
  apply (f_equal (@rev char16)) in H.
  rewrite rev_involutive, rev_app_distr in H. cbn in H.
  apply (dropWhile_head isWhiteSpace _ c (rev init) H).
Qed.

Lemma trim_idempotent (s : jsstring) : trim (trim s) = trim s.
Proof.
  assert (H1 : dropWhile isWhiteSpace (trim s) = trim s).
  { apply dropWhile_fixed. destruct (trim s) as [|c r] eqn:E; [exact I|].
    apply (trim_first s c r E). }
  unfold trim at 1. rewrite H1. unfold trim. rewrite rev_involutive.
  f_equal. apply dropWhile_fixed.
  destruct (dropWhile isWhiteSpace (rev (dropWhile isWhiteSpace s))) as [|c r] eqn:E;
    [exact I|].
  apply (dropWhile_head _ _ _ _ E).
Qed.

(** ** Adding whole Numbers *)

Lemma iter_pos_nat {A} (f : A -> A) (p : positive) :
  forall x, iter_pos f p x = Nat.iter (Pos.to_nat p) f x.
Proof.
  induction p as [p IH|p IH|]; intros x; cbn [iter_pos].
  - rewrite !IH, Pos2Nat.inj_xI.
    replace (S (2 * Pos.to_nat p)) with (Pos.to_nat p + (Pos.to_nat p + 1))%nat by lia.
    rewrite !Nat.iter_add. reflexivity.
  - rewrite !IH, Pos2Nat.inj_xO.
    replace (2 * Pos.to_nat p)%nat with (Pos.to_nat p + Pos.to_nat p)%nat by lia.
    rewrite Nat.iter_add. reflexivity.
  - reflexivity.
Qed.

Lemma iter_shr_1_exact (n : nat) :
  forall m : positive,
    Nat.iter n shr_1
      {| shr_m := Z.pos m * 2 ^ Z.of_nat n; shr_r := false; shr_s := false |} =
    {| shr_m := Z.pos m; shr_r := false; shr_s := false |}.
Proof.
  induction n as [|n IH]; intros m.
  - cbn [Nat.iter]. rewrite Z.mul_1_r. reflexivity.
  - rewrite Nat.iter_succ_r.
    assert (Hp : 0 < 2 ^ Z.of_nat n) by (apply Z.pow_pos_nonneg; lia).
    set (q := Z.to_pos (Z.pos m * 2 ^ Z.of_nat n)).
    assert (Hq : Z.pos q = Z.pos m * 2 ^ Z.of_nat n) by (apply Z2Pos.id; nia).
    replace (Z.pos m * 2 ^ Z.of_nat (S n)) with (Z.pos q~0).
    2:{ change (Z.pos q~0) with (2 * Z.pos q). rewrite Hq, Nat2Z.inj_succ, Z.pow_succ_r by lia.
        ring. }
    cbn [shr_1 orb]. rewrite Hq. apply IH.
Qed.

Lemma shr_exact (m : positive) (e d : Z) :
  0 <= d ->
  shr {| shr_m := Z.pos m * 2 ^ d; shr_r := false; shr_s := false |} e d =
  ({| shr_m := Z.pos m; shr_r := false; shr_s := false |}, e + d).
Proof.
  intros Hd. unfold shr. destruct d as [|p|p]; [| |lia].
  - rewrite Z.mul_1_r, Z.add_0_r. reflexivity.
  - rewrite iter_pos_nat. stdZ.
    rewrite <- (positive_nat_Z p) at 1. rewrite iter_shr_1_exact. reflexivity.
Qed.

Lemma iter_xO_value (n : nat) (m : positive) :
  Z.pos (Nat.iter n xO m) = Z.pos m * 2 ^ Z.of_nat n.
Proof.
  induction n as [|n IH]; [cbn; lia|].
  rewrite Nat.iter_succ. change (Z.pos (xO (Nat.iter n xO m))) with (2 * Z.pos (Nat.iter n xO m)).
  rewrite IH, Nat2Z.inj_succ, Z.pow_succ_r by lia. ring.
Qed.

Lemma shl_align_value (mx : positive) (ex ex' : Z) :
  ex' <= ex ->
  Z.pos (fst (shl_align mx ex ex')) = Z.pos mx * 2 ^ (ex - ex') /\
  snd (shl_align mx ex ex') = ex'.
Proof.
  intros H. unfold shl_align. stdZ.
  destruct (ex' - ex) as [|d|d] eqn:E; [| lia |].
  - cbn [fst snd]. replace (ex - ex') with 0 by lia. split; lia.
  - cbn [fst snd]. replace (ex - ex') with (Z.pos d) by lia.
    split; [|reflexivity].
    rewrite Pos2Nat.inj_iter.
    change (nat_rect _ mx (fun _ => xO) (Pos.to_nat d)) with (Nat.iter (Pos.to_nat d) xO mx).
    rewrite iter_xO_value, positive_nat_Z. reflexivity.
Qed.

(** Rounding a mantissa that carries an integer below [2^53] exactly. *)
Lemma binary_round_aux_integer (s p : positive) (K : Z) :
  0 <= K ->
  Z.pos (digits2_pos p) <= prec ->
  prec - Z.pos (digits2_pos p) <= K ->
  Z.pos s = Z.pos p * 2 ^ K ->
  binary_round_aux prec emax false (Z.pos s) (- K) loc_Exact = ofPositive false p.
Proof.
  intros HK Hd HkK Hs. unfold ofPositive, prec in *.
  pose proof (digits2_pos_bounds p) as Hb.
  set (d := Z.pos (digits2_pos p)) in *.
  assert (Hd1 : 1 <= d) by (subst d; lia).
  rewrite Z.max_r by lia.
  set (k := 53 - d) in *.
  assert (Hpk : 0 < 2 ^ k) by (apply Z.pow_pos_nonneg; lia).
  set (p' := Z.to_pos (Z.shiftl (Z.pos p) k)).
  assert (Hp' : Z.pos p' = Z.pos p * 2 ^ k).
  { subst p'. rewrite Z.shiftl_mul_pow2 by lia. apply Z2Pos.id. nia. }
  assert (Hd' : Z.pos (digits2_pos p') = 53).
  { apply digits2_pos_unique. rewrite Hp'.
    assert (E1 : 2 ^ (53 - 1) = 2 ^ (d - 1) * 2 ^ k)
      by (rewrite <- Z.pow_add_r by lia; f_equal; lia).
    assert (E2 : 2 ^ 53 = 2 ^ d * 2 ^ k)
      by (rewrite <- Z.pow_add_r by lia; f_equal; lia).
    rewrite E1, E2. clear E1 E2 Hp'.
    generalize dependent (2 ^ (d - 1)). generalize dependent (2 ^ d).
    generalize dependent (2 ^ k). intros; nia. }
  assert (Hsp : Z.pos s = Z.pos p' * 2 ^ (K - k)).
  { rewrite Hs, Hp', <- Z.mul_assoc, <- Z.pow_add_r by lia. do 2 f_equal. lia. }
  assert (Hds : Z.pos (digits2_pos s) = 53 + (K - k)).
  { apply digits2_pos_unique. rewrite Hsp.
    pose proof (digits2_pos_bounds p') as Hb'. rewrite Hd' in Hb'.
    assert (0 < 2 ^ (K - k)) by (apply Z.pow_pos_nonneg; lia).
    replace (53 + (K - k) - 1) with ((53 - 1) + (K - k)) by lia.
    rewrite !Z.pow_add_r by lia.
    generalize dependent (2 ^ (53 - 1)). generalize dependent (2 ^ 53).
    generalize dependent (2 ^ (K - k)). intros; nia. }
  unfold binary_round_aux, shr_fexp.
  cbn [Zdigits2 shr_record_of_loc]. rewrite Hds.
  assert (H1 : fexp 53 emax (53 + (K - k) + - K) - - K = K - k).
  { unfold fexp, emin, emax. stdZ. lia. }
  stdZ. rewrite H1, Hsp, shr_exact by lia.
  cbn [shr_m loc_of_shr_record round_nearest_even Zdigits2 orb].
  rewrite Hd'.
  assert (H2 : fexp 53 emax (53 + (- K + (K - k))) - (- K + (K - k)) = 0).
  { unfold fexp, emin, emax. stdZ. lia. }
  rewrite H2. cbn [shr shr_m].
  replace (- K + (K - k) <=? emax - 53) with true
    by (symmetry; apply Z.leb_le; unfold emax; lia).
  f_equal. lia.
Qed.

Lemma digits2_pos_le (p q : positive) :
  Z.pos p <= Z.pos q -> Z.pos (digits2_pos p) <= Z.pos (digits2_pos q).
Proof.
  intros H. pose proof (digits2_pos_bounds p) as [Hp _].
  pose proof (digits2_pos_bounds q) as [_ Hq].
  destruct (Z.le_gt_cases (Z.pos (digits2_pos p)) (Z.pos (digits2_pos q))) as [|Hgt];
    [assumption|].
  assert (2 ^ Z.pos (digits2_pos q) <= 2 ^ (Z.pos (digits2_pos p) - 1))
    by (apply Z.pow_le_mono_r; lia).
  lia.
Qed.

Lemma digits2_pos_below (p : positive) (n : Z) :
  0 <= n -> Z.pos p < 2 ^ n -> Z.pos (digits2_pos p) <= n.
Proof.
  intros Hn H. pose proof (digits2_pos_bounds p) as [Hp _].
  destruct (Z.le_gt_cases (Z.pos (digits2_pos p)) n) as [|Hgt]; [assumption|].
  assert (2 ^ n <= 2 ^ (Z.pos (digits2_pos p) - 1))
    by (apply Z.pow_le_mono_r; lia).
  lia.
Qed.

Lemma Number_add_positive (pa pb : positive) :
  Z.pos (pa + pb) < 2 ^ prec ->
  Number_add (ofPositive false pa) (ofPositive false pb) = ofPositive false (pa + pb).
Proof.
  intros Hlt.
  assert (Hds : Z.pos (digits2_pos (pa + pb)) <= prec)
    by (apply digits2_pos_below; [unfold prec; lia | exact Hlt]).
  assert (Hda : Z.pos (digits2_pos pa) <= Z.pos (digits2_pos (pa + pb)))
    by (apply digits2_pos_le; lia).
  assert (Hdb : Z.pos (digits2_pos pb) <= Z.pos (digits2_pos (pa + pb)))
    by (apply digits2_pos_le; lia).
  unfold Number_add, ofPositive at 1 2.
  set (ka := Z.max 0 (prec - Z.pos (digits2_pos pa))).
  set (kb := Z.max 0 (prec - Z.pos (digits2_pos pb))).
  assert (Hka : ka = prec - Z.pos (digits2_pos pa)) by (subst ka; lia).
  assert (Hkb : kb = prec - Z.pos (digits2_pos pb)) by (subst kb; lia).
  assert (Hka0 : 0 <= ka) by (subst ka; lia).
  assert (Hkb0 : 0 <= kb) by (subst kb; lia).
  set (ma := Z.to_pos (Z.shiftl (Z.pos pa) ka)).
  set (mb := Z.to_pos (Z.shiftl (Z.pos pb) kb)).
  assert (Hma : Z.pos ma = Z.pos pa * 2 ^ ka).
  { subst ma. rewrite Z.shiftl_mul_pow2 by lia. apply Z2Pos.id.
    assert (0 < 2 ^ ka) by (apply Z.pow_pos_nonneg; lia). nia. }
  assert (Hmb : Z.pos mb = Z.pos pb * 2 ^ kb).
  { subst mb. rewrite Z.shiftl_mul_pow2 by lia. apply Z2Pos.id.
    assert (0 < 2 ^ kb) by (apply Z.pow_pos_nonneg; lia). nia. }
  cbn [SFadd]. unfold cond_Zopp. stdZ.
  set (K := Z.max ka kb).
  assert (Hez : Z.min (- ka) (- kb) = - K) by (subst K; lia).
  rewrite Hez.
  destruct (shl_align_value ma (- ka) (- K)) as [Va _]; [subst K; lia|].
  destruct (shl_align_value mb (- kb) (- K)) as [Vb _]; [subst K; lia|].
  rewrite Va, Vb, Hma, Hmb.
  assert (Hsum : Z.pos pa * 2 ^ ka * 2 ^ (- ka - - K) + Z.pos pb * 2 ^ kb * 2 ^ (- kb - - K)
                 = Z.pos (pa + pb) * 2 ^ K).
  { rewrite <- !Z.mul_assoc, <- !Z.pow_add_r by (subst K; lia).
    replace (ka + (- ka - - K)) with K by lia.
    replace (kb + (- kb - - K)) with K by lia.
    rewrite Pos2Z.inj_add. ring. }
  rewrite Hsum.
  assert (HK0 : 0 <= K) by (subst K; lia).
  assert (HpK : 0 < 2 ^ K) by (apply Z.pow_pos_nonneg; lia).
  set (M := Z.to_pos (Z.pos (pa + pb) * 2 ^ K)).
  assert (HM : Z.pos M = Z.pos (pa + pb) * 2 ^ K) by (apply Z2Pos.id; nia).
  rewrite <- HM. cbn [binary_normalize]. unfold binary_round.
  assert (HdM : Z.pos (digits2_pos M) = Z.pos (digits2_pos (pa + pb)) + K).
  { apply digits2_pos_unique. rewrite HM.
    pose proof (digits2_pos_bounds (pa + pb)) as Hb.
    replace (Z.pos (digits2_pos (pa + pb)) + K - 1)
      with ((Z.pos (digits2_pos (pa + pb)) - 1) + K) by lia.
    rewrite !Z.pow_add_r by lia.
    generalize dependent (2 ^ (Z.pos (digits2_pos (pa + pb)) - 1)).
    generalize dependent (2 ^ Z.pos (digits2_pos (pa + pb))).
    generalize dependent (2 ^ K). intros; nia. }
  stdZ. rewrite HdM.
  assert (Hfexp : fexp prec emax (Z.pos (digits2_pos (pa + pb)) + K + - K)
                  = Z.pos (digits2_pos (pa + pb)) - prec).
  { unfold fexp, emin, emax, prec in *. stdZ. lia. }
  rewrite Hfexp.
  assert (Hal : shl_align M (- K) (Z.pos (digits2_pos (pa + pb)) - prec) = (M, - K)).
  { unfold shl_align. stdZ.
    destruct (Z.pos (digits2_pos (pa + pb)) - prec - - K) eqn:E; try reflexivity.
    subst K. lia. }
  rewrite Hal.
  apply binary_round_aux_integer; [exact HK0 | exact Hds | subst K; lia | exact HM].
Qed.

Lemma Number_add_integers (a b : Z) :
  0 <= a -> 0 <= b -> a + b < 2 ^ prec ->
  Number_add (ofInteger false a) (ofInteger false b) = ofInteger false (a + b).
Proof.
  intros Ha Hb Hlt.
  destruct a as [|pa|pa]; [| |lia]; destruct b as [|pb|pb]; try lia; try reflexivity.
  cbn [ofInteger Z.add]. apply Number_add_positive. exact Hlt.
Qed.

Lemma Number_is_eq (x y : Number) : Number_is x y = true <-> x = y.
Proof.
  destruct x as [s|s| |s m e], y as [s'|s'| |s' m' e']; cbn [Number_is];
    try (split; [discriminate | congruence]); try tauto.
  - rewrite Bool.eqb_true_iff. split; congruence.
  - rewrite Bool.eqb_true_iff. split; congruence.
  - rewrite !andb_true_iff, Bool.eqb_true_iff, Pos.eqb_eq, Z.eqb_eq.
    split; [intros [[-> ->] ->]; reflexivity | intros [= -> -> ->]; auto].
Qed.

Lemma ofInteger_inj (a b : Z) : ofInteger false a = ofInteger false b -> a = b.
Proof.
  intros H. apply (f_equal asInteger) in H.
  rewrite !asInteger_ofInteger in H. congruence.
Qed.

Lemma Number_is_ofInteger (a b : Z) :
  Number_is (ofInteger false a) (ofInteger false b) = (a =? b).
Proof.
  destruct (Z.eqb_spec a b) as [->|Hne].
  - apply Number_is_eq. reflexivity.
  - destruct (Number_is _ _) eqn:E; [|reflexivity].
    apply Number_is_eq, ofInteger_inj in E. contradiction.
Qed.

(** ** Containment *)

Lemma startsWith_app (sub rest : jsstring) : startsWith sub (sub ++ rest) = true.
Proof.
  induction sub as [|c sub IH]; cbn [app startsWith]; [reflexivity|].
  rewrite N.eqb_refl. exact IH.
Qed.

Lemma startsWith_prefix (sub s : jsstring) :
  startsWith sub s = true -> exists rest, s = sub ++ rest.
Proof.
  revert s; induction sub as [|c sub IH]; intros s; [exists s; reflexivity|].
  destruct s as [|d s]; cbn [startsWith]; [discriminate|].
  rewrite andb_true_iff, N.eqb_eq. intros [-> H].
  destruct (IH s H) as [rest ->]. exists rest. reflexivity.
Qed.

(** [includes] is containment as a substring. *)
Lemma includes_spec (s sub : jsstring) :
  includes s sub = true <-> exists pre post, s = pre ++ sub ++ post.
Proof.
  split.
  - induction s as [|c s IH]; cbn [includes]; rewrite orb_true_iff.
    + intros [H|H]; [|discriminate].
      apply startsWith_prefix in H. destruct H as [rest H].
      exists [], rest. exact H.
    + intros [H|H].
      * apply startsWith_prefix in H. destruct H as [rest H].
        exists [], rest. exact H.
      * destruct (IH H) as (pre & post & ->). exists (c :: pre), post. reflexivity.
  - intros (pre & post & ->).
    induction pre as [|c pre IH]; cbn [app].
    + destruct (sub ++ post) eqn:E; cbn [includes]; rewrite <- E, startsWith_app;
        reflexivity.
    + cbn [includes]. rewrite IH. apply orb_true_r.
Qed.

Lemma includes_join2 (n0 n1 sub : jsstring) :
  includes n0 sub = true \/ includes n1 sub = true ->
  includes (join2 n0 n1) sub = true.
Proof.
  unfold join2.
  intros [H|H]; apply includes_spec in H; destruct H as (pre & post & ->);
    apply includes_spec.
  - exists pre, (post ++ [32%N] ++ n1). rewrite <- !app_assoc. reflexivity.
  - exists (n0 ++ [32%N] ++ pre), post. rewrite <- !app_assoc. reflexivity.
Qed.

(** ** The tests on the cart page *)

Lemma bind_inr {A B} (m : M A) (f : A -> M B) (w w' : World) (a : A) :
  m w = (inr a, w') -> bind m f w = f a w'.
Proof. unfold bind. intros ->. reflexivity. Qed.

Lemma bind_inl {A B} (m : M A) (f : A -> M B) (w w' : World) (e : exn) :
  m w = (inl e, w') -> bind m f w = (inl e, w').
Proof. unfold bind. intros ->. reflexivity. Qed.

Lemma countItems_run (w : World) :
  countItems w = (inr (List.length (rows (page w))), w).
Proof. reflexivity. Qed.

Lemma rowPrice_wholeNumber (r : Row) (a : Z) :
  wholeNumber (nullish (priceCell r) (js "0")) a -> rowPrice r = ofInteger false a.
Proof. apply parsePrice_wholeNumber_Number. Qed.

Lemma wholeNumber_nonneg (text : jsstring) (n : Z) : wholeNumber text n -> 0 <= n.
Proof. intros (_ & _ & <- & _). apply N2Z.is_nonneg. Qed.

Lemma TC03_passes (shop : Storefront) (w w' : World) :
  TC03_cart shop w = (inr tt, w') ->
  detached shop 0 (deleted shop 0 (page w)) = true /\
  noRowAt 0 (deleted shop 0 (page w)) = false /\
  List.length (rows (deleted shop 0 (page w))) = (List.length (rows (page w)) - 1)%nat.
Proof.
  intros H. unfold TC03_cart in H.
  set (w1 := {| page := page w; log := log w ++ [ClickCart] |}) in *.
  rewrite (bind_inr _ _ w w1 tt (open_run w)) in H.
  rewrite (bind_inr _ _ w1 w1 _ (countItems_run w1)) in H.
  change (page w1) with (page w) in H.
  unfold expect_toBeGreaterThanOrEqual at 1 in H.
  destruct (rows (page w)) as [|r0 [|r1 rest]] eqn:Hrows; cbn [List.length Nat.leb] in H;
    try (rewrite (bind_inl (throw ExpectError) _ w1 w1 ExpectError eq_refl) in H; discriminate).
  assert (Hr1 : rows (page w1) = r0 :: r1 :: rest) by exact Hrows.
  rewrite (bind_inr _ _ w1 w1 tt eq_refl) in H.
  rewrite (bind_inr _ _ w1 w1 _
             (getRowPrice_present 0 r0 w1 (f_equal (fun l => nth_error l 0) Hr1))) in H.
  rewrite (bind_inr _ _ w1 w1 _
             (getRowPrice_present 1 r1 w1 (f_equal (fun l => nth_error l 1) Hr1))) in H.
  rewrite (bind_inr _ _ w1 w1 _ (getTotal_run w1)) in H.
  unfold expect_Number_toBe at 1 in H.
  destruct (Number_is _ _);
    [|rewrite (bind_inl (throw ExpectError) _ w1 w1 ExpectError eq_refl) in H; discriminate].
  rewrite (bind_inr _ _ w1 w1 tt eq_refl) in H.
  assert (Hin : (0 < List.length (rows (page w1)))%nat) by (rewrite Hr1; cbn; lia).
  pose proof (deleteByIndex_present shop 0 w1 Hin) as Hdel.
  change (page w1) with (page w) in Hdel.
  destruct (detached shop 0 (deleted shop 0 (page w))) eqn:Hdet;
    [|rewrite (bind_inl _ _ _ _ _ Hdel) in H; discriminate].
  rewrite (bind_inr _ _ _ _ _ Hdel) in H.
  rewrite (bind_inr _ _ _ _ _ (countItems_run (afterDeletion shop 0 w1))) in H.
  cbn [afterDeletion page List.length] in H.
  unfold expect_toBe at 1 in H.
  match type of H with
  | context [Nat.eqb ?a ?b] => destruct (Nat.eqb_spec a b) as [Hc|Hc]
  end;
    [|rewrite (bind_inl (throw ExpectError) _ _ _ ExpectError eq_refl) in H; discriminate].
  change (page w1) with (page w) in Hc.
  split; [reflexivity|]. split; [|cbn [List.length]; lia].
  unfold noRowAt.
  destruct (nth_error (rows (deleted shop 0 (page w))) 0) eqn:E; [reflexivity|].
  apply nth_error_None in E. lia.
Qed.

Lemma TC03_inPlace_fails (w : World) : exists e, fst (TC03_cart inPlace w) = inl e.
Proof.
  destruct (TC03_cart inPlace w) as [[e|[]] w'] eqn:E; [exists e; reflexivity|].
  destruct (TC03_passes inPlace w w' E) as (H1 & H2 & _).
  cbn [detached inPlace] in H1. congruence.
Qed.

(** ** [clearCart] and [deleteByName] on any storefront *)

Section AnyStorefront.

Variable shop : Storefront.

Lemma clearCart_loop_log (k : nat) :
  forall w : World,
    exists m, (m <= k)%nat /\
      log (snd (clearCart_loop shop k w)) = log w ++ firstn (2 * m) (deletionsFromLast k).
Proof.
  induction k as [|k IH]; intros w.
  - exists 0%nat. split; [lia|]. cbn. rewrite app_nil_r. reflexivity.
  - cbn [clearCart_loop]. rewrite deletionsFromLast_S.
    destruct (Nat.le_gt_cases (List.length (rows (page w))) k) as [Habs|Hin].
    + exists 0%nat. split; [lia|].
      rewrite (bind_inl _ _ _ _ _ (deleteByIndex_absent shop k w Habs)).
      cbn. rewrite app_nil_r. reflexivity.
    + pose proof (deleteByIndex_present shop k w Hin) as Hdel.
      destruct (detached shop k (deleted shop k (page w))).
      * rewrite (bind_inr _ _ _ _ _ Hdel).
        destruct (IH (afterDeletion shop k w)) as (m & Hm & Hlog).
        exists (S m). split; [lia|]. rewrite Hlog. cbn [afterDeletion log].
        rewrite <- app_assoc.
        replace (2 * S m)%nat with (S (S (2 * m))) by lia. reflexivity.
      * rewrite (bind_inl _ _ _ _ _ Hdel).
        exists 1%nat. split; [lia|]. reflexivity.
Qed.

Lemma clearCart_log (w : World) :
  exists m, (m <= List.length (rows (page w)))%nat /\
    log (snd (clearCart shop w)) =
      log w ++ ClickCart :: firstn (2 * m) (deletionsFromLast (List.length (rows (page w)))).
Proof.
  unfold clearCart.
  set (w1 := {| page := page w; log := log w ++ [ClickCart] |}).
  rewrite (bind_inr _ _ w w1 tt (open_run w)).
  rewrite (bind_inr _ _ w1 w1 _ (countItems_run w1)).
  change (page w1) with (page w).
  destruct (List.length (rows (page w))) as [|n] eqn:Hn.
  - exists 0%nat. split; [lia|]. reflexivity.
  - cbn [Nat.eqb].
    destruct (clearCart_loop_log (S n) w1) as (m & Hm & Hlog).
    exists m. split; [exact Hm|].
    destruct (clearCart_loop shop (S n) w1) as [[e|[]] w2] eqn:E; cbn [snd] in Hlog.
    + rewrite (bind_inl _ _ _ _ _ E). cbn [snd]. rewrite Hlog. cbn [w1 log].
      rewrite <- app_assoc. reflexivity.
    + rewrite (bind_inr _ _ _ _ _ E).
      rewrite (bind_inr _ _ _ _ _ (countItems_run w2)).
      unfold expect_toBe, ret, throw.
      destruct (Nat.eqb _ 0); cbn [snd]; rewrite Hlog; cbn [w1 log];
        rewrite <- app_assoc; reflexivity.
Qed.

Lemma removeRow_In (l : list Row) (j : nat) (x : Row) :
  In x (firstn j l ++ skipn (S j) l) ->
  exists j', j' <> j /\ nth_error l j' = Some x.
Proof.
  intros H. apply in_app_or in H. destruct H as [H|H];
    apply In_nth_error in H; destruct H as [n Hn].
  - rewrite nth_error_firstn in Hn.
    destruct (Nat.ltb_spec n j); [|discriminate].
    exists n. split; [lia | exact Hn].
  - rewrite nth_error_skipn in Hn.
    exists (S j + n)%nat. split; [lia | exact Hn].
Qed.

Lemma deleteByName_again (name : jsstring) (w : World) (j : nat) (r : Row) :
  nth_error (rows (page w)) j = Some r -> rowName r = name ->
  (forall j' r', j' <> j -> nth_error (rows (page w)) j' = Some r' -> rowName r' <> name) ->
  rows (deleted shop j (page w)) = rows (removeRow j (page w)) ->
  snd (deleteByName shop name w) = afterDeletion shop j w /\
  deleteByName shop name (afterDeletion shop j w) =
    (inl (Error (notFoundMessage name)), afterDeletion shop j w).
Proof.
  intros Hr Hn Hothers Hrows.
  assert (Hj : (j < List.length (rows (page w)))%nat)
    by (apply nth_error_Some; congruence).
  split.
  - unfold deleteByName. rewrite (bind_inr _ _ w w _ (countItems_run w)).
    rewrite (deleteByName_loop_first shop name _ 0%nat j r w);
      [rewrite deleteByIndex_present by exact Hj; reflexivity
      | lia | exact Hr | exact Hn |].
    intros j' r' Hj'. apply Hothers. lia.
  - unfold deleteByName.
    rewrite (bind_inr _ _ _ _ _ (countItems_run (afterDeletion shop j w))).
    apply deleteByName_loop_none; [lia|].
    intros j' r' _ Hr'. cbn [afterDeletion page] in Hr'.
    rewrite Hrows in Hr'. apply nth_error_In in Hr'.
    destruct (removeRow_In _ _ _ Hr') as (i & Hi & Hnth).
    apply (Hothers i r' Hi Hnth).
Qed.

End AnyStorefront.

Lemma clearCart_first_wait_fails (shop : Storefront) (w : World) (k : nat) :
  List.length (rows (page w)) = S k ->
  detached shop k (deleted shop k (page w)) = false ->
  clearCart shop w =
    (inl (TimeoutError (RowAt k)),
     afterDeletion shop k {| page := page w; log := log w ++ [ClickCart] |}).
Proof.
  intros Hlen Hdet. unfold clearCart.
  set (w1 := {| page := page w; log := log w ++ [ClickCart] |}).
  rewrite (bind_inr _ _ w w1 tt (open_run w)).
  rewrite (bind_inr _ _ w1 w1 _ (countItems_run w1)).
  change (page w1) with (page w). rewrite Hlen. cbn [Nat.eqb clearCart_loop].
  assert (Hin : (k < List.length (rows (page w1)))%nat) by (cbn [w1 page]; lia).
  pose proof (deleteByIndex_present shop k w1 Hin) as Hdel.
  change (page w1) with (page w) in Hdel. rewrite Hdet in Hdel.
  rewrite (bind_inl _ _ w1 _ _ (bind_inl _ _ w1 _ _ Hdel)). reflexivity.
Qed.

(** * Further properties, stated *)

(** ** [parsePrice] *)

(** X1: a text whose digits, once everything but digits and dots is
    stripped, spell a whole number below [2^53] is read as exactly that
    number, whatever signs, separators, spaces or leading zeros it has. *)
Theorem parsePrice_reads_whole_numbers (text : jsstring) (n : Z) :
  wholeNumber text n ->
  parsePrice text = ofInteger false n /\ asInteger (parsePrice text) = Some n.
Proof.
  intros H. split; [apply parsePrice_wholeNumber_Number | apply parsePrice_wholeNumber];
    exact H.
Qed.

Lemma parsePrice_reads_whole_numbers_witness :
  parsePrice (js "USD 001,235 ") = ofInteger false 1235 /\
  asInteger (parsePrice (js "USD 001,235 ")) = Some 1235.
Proof.
  apply (parsePrice_reads_whole_numbers (js "USD 001,235 ") 1235).
  repeat constructor; try discriminate; reflexivity.
Defined.

(** X2: characters that are neither digits nor dots do not count, wherever
    they stand: the digits on both sides of them are read as one number. *)
Theorem parsePrice_ignores_other_characters (a junk b : jsstring) :
  Forall (fun c => keep c = false) junk ->
  parsePrice (a ++ junk ++ b) = parsePrice (a ++ b).
Proof.
  intros H. unfold parsePrice.
  rewrite !stripNonNumeric_app, (stripNonNumeric_none junk H). reflexivity.
Qed.

Lemma parsePrice_ignores_other_characters_witness :
  parsePrice (js "12" ++ js " for $" ++ js "34") = parsePrice (js "12" ++ js "34").
Proof.
  apply (parsePrice_ignores_other_characters (js "12") (js " for $") (js "34")).
  repeat constructor.
Defined.

(** X3: a text without any digit is read as zero, dots or not. *)
Theorem parsePrice_without_digit_is_zero (text : jsstring) :
  Forall (fun c => isDigit c = false) text -> parsePrice text = zero.
Proof.
  intros H. apply parsePrice_degrades.
  assert (Hdots : Forall (fun c => isDot c = true) (stripNonNumeric text)).
  { apply Forall_forall. intros c Hc. apply filter_In in Hc. destruct Hc as [Hin Hk].
    rewrite Forall_forall in H. specialize (H c Hin).
    unfold keep in Hk. rewrite H in Hk. exact Hk. }
  destruct (stripNonNumeric text) as [|c s] eqn:E; [reflexivity|].
  rewrite parseFloat_kept.
  - rewrite (parseUnsigned_dots c s Hdots). reflexivity.
  - rewrite <- E. apply stripNonNumeric_keep.
Qed.

Lemma parsePrice_without_digit_is_zero_witness : parsePrice (js "n.a. (call us...)") = zero.
Proof.
  apply (parsePrice_without_digit_is_zero (js "n.a. (call us...)")).
  repeat constructor.
Defined.

(** X4: of a text with two dots only what comes before the second dot is
    read: the digits after it are dropped, not taken for thousands. *)
Theorem parsePrice_stops_at_second_dot (text a b rest : jsstring) :
  Forall (fun c => isDigit c = true) a ->
  Forall (fun c => isDigit c = true) b ->
  stripNonNumeric text = a ++ 46%N :: b ++ 46%N :: rest ->
  parsePrice text = parsePrice (a ++ 46%N :: b).
Proof.
  intros Ha Hb Hs.
  assert (Hkab : Forall (fun c => keep c = true) (a ++ 46%N :: b)).
  { apply Forall_app. split.
    - eapply Forall_impl; [|exact Ha]. intros c Hc. apply isDigit_keep, Hc.
    - constructor; [reflexivity|].
      eapply Forall_impl; [|exact Hb]. intros c Hc. apply isDigit_keep, Hc. }
  pose proof (stripNonNumeric_keep text) as Hk. rewrite Hs in Hk.
  unfold parsePrice. rewrite Hs, (stripNonNumeric_fixed _ Hkab).
  replace (orElse (a ++ 46%N :: b ++ 46%N :: rest) (js "0"))
    with (a ++ 46%N :: b ++ 46%N :: rest) by (destruct a; reflexivity).
  replace (orElse (a ++ 46%N :: b) (js "0")) with (a ++ 46%N :: b)
    by (destruct a; reflexivity).
  rewrite (parseFloat_kept _ Hk), (parseFloat_kept _ Hkab).
  rewrite parseUnsigned_second_dot by assumption. reflexivity.
Qed.

Lemma parsePrice_stops_at_second_dot_witness :
  parsePrice (js "$1.234.567") = parsePrice (js "1" ++ 46%N :: js "234").
Proof.
  apply (parsePrice_stops_at_second_dot (js "$1.234.567") (js "1") (js "234") (js "567")).
  - repeat constructor.
  - repeat constructor.
  - reflexivity.
Defined.

(** ** The cart page object *)

(** X5: a name [getRowName] returns is trimmed: it neither begins nor ends
    with white space, trimming it again changes nothing, and reading it
    leaves the world as it was. *)
Theorem getRowName_is_trimmed (w w' : World) (i : nat) (n : jsstring) :
  getRowName i w = (inr n, w') ->
  w' = w /\ trim n = n /\
  (forall c r, n = c :: r -> isWhiteSpace c = false) /\
  (forall init c, n = init ++ [c] -> isWhiteSpace c = false).
Proof.
  intros H.
  destruct (nth_error (rows (page w)) i) as [r|] eqn:Hr.
  - rewrite (getRowName_present i r w Hr) in H.
    assert (Hn : n = rowName r) by congruence.
    assert (Hw : w' = w) by congruence.
    subst n. unfold rowName.
    split; [exact Hw|]. split; [apply trim_idempotent|]. split.
    + intros c rest E. apply (trim_first _ c rest E).
    + intros init c E. apply (trim_last _ init c E).
  - apply nth_error_None in Hr. rewrite (getRowName_absent i w Hr) in H. discriminate.
Qed.

Lemma getRowName_is_trimmed_witness :
  laptops = laptops /\ trim (js "Dell i7 8gb") = js "Dell i7 8gb" /\
  (forall c r, js "Dell i7 8gb" = c :: r -> isWhiteSpace c = false) /\
  (forall init c, js "Dell i7 8gb" = init ++ [c] -> isWhiteSpace c = false).
Proof.
  apply (getRowName_is_trimmed laptops laptops 2 (js "Dell i7 8gb")). reflexivity.
Defined.

(** X6: a name that begins or ends with white space is never found by
    [deleteByName], even when it is the very text of a row's title cell: the
    names of the rows are trimmed before they are compared, the name given
    is not. *)
Theorem deleteByName_untrimmed_name (shop : Storefront) (name : jsstring) (w : World) :
  trim name <> name ->
  deleteByName shop name w = (inl (Error (notFoundMessage name)), w).
Proof.
  intros Hname. unfold deleteByName.
  rewrite (bind_inr _ _ w w _ (countItems_run w)).
  apply deleteByName_loop_none; [lia|].
  intros j r _ _ Hr. apply Hname. rewrite <- Hr. apply trim_idempotent.
Qed.

Lemma deleteByName_untrimmed_name_witness :
  nth_error (map nameCell (rows (page laptops))) 2 = Some (Some (js " Dell i7 8gb ")) /\
  deleteByName inPlace (js " Dell i7 8gb ") laptops =
    (inl (Error (notFoundMessage (js " Dell i7 8gb "))), laptops).
Proof.
  split; [reflexivity|].
  apply (deleteByName_untrimmed_name inPlace (js " Dell i7 8gb ") laptops). discriminate.
Defined.

(** X7: on any storefront [clearCart] asks for deletions in one order only:
    after the click on the cart link, some first part of the deletions from
    the last position down, one per row at most; and when the first wait is
    not confirmed it throws that wait's time-out with one deletion asked
    for. *)
Theorem clearCart_deletion_order (shop : Storefront) (w : World) :
  (exists m, (m <= List.length (rows (page w)))%nat /\
     log (snd (clearCart shop w)) =
       log w ++ ClickCart ::
         firstn (2 * m) (deletionsFromLast (List.length (rows (page w))))) /\
  (forall k, List.length (rows (page w)) = S k ->
             detached shop k (deleted shop k (page w)) = false ->
             clearCart shop w =
               (inl (TimeoutError (RowAt k)),
                afterDeletion shop k {| page := page w; log := log w ++ [ClickCart] |})).
Proof.
  split; [apply clearCart_log | apply clearCart_first_wait_fails].
Qed.

Lemma clearCart_deletion_order_witness :
  clearCart ignoring laptops =
    (inl (TimeoutError (RowAt 2)),
     {| page := page laptops; log := [ClickCart; ClickDelete 2; WaitDetached 2] |}).
Proof.
  apply (proj2 (clearCart_deletion_order ignoring laptops) 2%nat); reflexivity.
Defined.

(** X8: where the storefront takes the row out of the listing, deleting by
    a name that one row only has leaves the world with that one deletion
    asked for, and deleting by the same name again throws the not-found
    [Error] and asks for nothing. *)
Theorem deleteByName_twice (shop : Storefront) (name : jsstring) (w : World)
    (j : nat) (r : Row) :
  nth_error (rows (page w)) j = Some r -> rowName r = name ->
  (forall j' r', j' <> j -> nth_error (rows (page w)) j' = Some r' -> rowName r' <> name) ->
  rows (deleted shop j (page w)) = rows (removeRow j (page w)) ->
  snd (deleteByName shop name w) = afterDeletion shop j w /\
  deleteByName shop name (snd (deleteByName shop name w)) =
    (inl (Error (notFoundMessage name)), afterDeletion shop j w).
Proof.
  intros Hr Hn Ho Hrows.
  destruct (deleteByName_again shop name w j r Hr Hn Ho Hrows) as [H1 H2].
  split; [exact H1|]. rewrite H1. exact H2.
Qed.

Lemma deleteByName_twice_witness :
  snd (deleteByName redrawn (js "Sony vaio i5") laptops) = afterDeletion redrawn 0 laptops /\
  deleteByName redrawn (js "Sony vaio i5") (snd (deleteByName redrawn (js "Sony vaio i5") laptops)) =
    (inl (Error (notFoundMessage (js "Sony vaio i5"))), afterDeletion redrawn 0 laptops).
Proof.
  apply (deleteByName_twice redrawn (js "Sony vaio i5") laptops 0
           {| nameCell := Some (js "Sony vaio i5"); priceCell := Some (js "790") |}).
  - reflexivity.
  - reflexivity.
  - intros [|[|[|j']]] r' Hj' Hr'; try congruence;
      try (injection Hr' as <-; discriminate).
    destruct j'; discriminate.
  - reflexivity.
Defined.

(** ** The tests *)

(** X9: on a cart whose first price and total are whole numbers, TC-01
    passes exactly when the total is the first row's price and the first
    row's name contains [Sony vaio i5], whatever rows follow; it leaves the
    cart as it is. *)
Theorem TC01_compares_total_with_first_row (w : World) (r0 : Row) (rest : list Row)
    (a0 t : Z) :
  rows (page w) = r0 :: rest ->
  wholeNumber (nullish (priceCell r0) (js "0")) a0 ->
  wholeNumber (nullish (totalp (page w)) (js "0")) t ->
  TC01_cart w =
    (if (t =? a0) && includes (rowName r0) (js "Sony vaio i5")
     then inr tt else inl ExpectError,
     {| page := page w; log := log w ++ [ClickCart] |}).
Proof.
  intros Hrows Ha Ht. unfold TC01_cart.
  set (w1 := {| page := page w; log := log w ++ [ClickCart] |}).
  assert (Hr1 : rows (page w1) = r0 :: rest) by exact Hrows.
  rewrite (bind_inr _ _ w w1 tt (open_run w)).
  rewrite (bind_inr _ _ w1 w1 _ (countItems_run w1)).
  rewrite Hr1. cbn [List.length]. unfold expect_toBeGreaterThanOrEqual at 1.
  cbn [Nat.leb]. rewrite (bind_inr _ _ w1 w1 tt eq_refl).
  rewrite (bind_inr _ _ w1 w1 _ (getRowPrice_present 0 r0 w1 (f_equal (fun l => nth_error l 0) Hr1))).
  rewrite (bind_inr _ _ w1 w1 _ (getTotal_run w1)).
  change (page w1) with (page w).
  rewrite (rowPrice_wholeNumber r0 a0 Ha), (parsePrice_wholeNumber_Number _ t Ht).
  unfold expect_Number_toBe. rewrite Number_is_ofInteger.
  destruct (t =? a0); [|reflexivity].
  rewrite (bind_inr _ _ w1 w1 tt eq_refl).
  rewrite (bind_inr _ _ w1 w1 _ (getRowName_present 0 r0 w1 (f_equal (fun l => nth_error l 0) Hr1))).
  unfold expect_toContain. cbn [andb].
  destruct (includes (rowName r0) (js "Sony vaio i5")); reflexivity.
Qed.

Lemma TC01_compares_total_with_first_row_witness :
  TC01_cart oneLaptop = (inr tt, {| page := page oneLaptop; log := [ClickCart] |}) /\
  TC01_cart twoLaptops = (inl ExpectError, {| page := page twoLaptops; log := [ClickCart] |}).
Proof.
  split.
  - refine (TC01_compares_total_with_first_row oneLaptop
              {| nameCell := Some (js "Sony vaio i5"); priceCell := Some (js "790") |}
              [] 790 790 eq_refl _ _);
      repeat constructor; try discriminate; reflexivity.
  - refine (TC01_compares_total_with_first_row twoLaptops
              {| nameCell := Some (js "Sony vaio i7"); priceCell := Some (js "790") |}
              [ {| nameCell := Some (js "Sony vaio i5"); priceCell := Some (js "790") |} ]
              790 1580 eq_refl _ _);
      repeat constructor; try discriminate; reflexivity.
Defined.

(** X10: on a cart whose first two prices and total are whole numbers,
    TC-02 passes exactly when the total is the sum of the first two prices
    and the two names, joined by a space, contain both product names: rows
    after the second are not added in, so a cart of three priced rows with
    its right total fails it. *)
Theorem TC02_compares_total_with_two_rows (w : World) (r0 r1 : Row) (rest : list Row)
    (a0 a1 t : Z) :
  rows (page w) = r0 :: r1 :: rest ->
  wholeNumber (nullish (priceCell r0) (js "0")) a0 ->
  wholeNumber (nullish (priceCell r1) (js "0")) a1 ->
  wholeNumber (nullish (totalp (page w)) (js "0")) t ->
  a0 + a1 < 2 ^ prec ->
  TC02_cart w =
    (if (t =? a0 + a1)
        && includes (join2 (rowName r0) (rowName r1)) (js "Sony vaio i5")
        && includes (join2 (rowName r0) (rowName r1)) (js "Sony vaio i7")
     then inr tt else inl ExpectError,
     {| page := page w; log := log w ++ [ClickCart] |}).
Proof.
  intros Hrows Ha0 Ha1 Ht Hsum. unfold TC02_cart.
  set (w1 := {| page := page w; log := log w ++ [ClickCart] |}).
  assert (Hr1 : rows (page w1) = r0 :: r1 :: rest) by exact Hrows.
  rewrite (bind_inr _ _ w w1 tt (open_run w)).
  rewrite (bind_inr _ _ w1 w1 _ (countItems_run w1)).
  rewrite Hr1. cbn [List.length]. unfold expect_toBeGreaterThanOrEqual at 1.
  cbn [Nat.leb]. rewrite (bind_inr _ _ w1 w1 tt eq_refl).
  rewrite (bind_inr _ _ w1 w1 _
             (getRowPrice_present 0 r0 w1 (f_equal (fun l => nth_error l 0) Hr1))).
  rewrite (bind_inr _ _ w1 w1 _
             (getRowPrice_present 1 r1 w1 (f_equal (fun l => nth_error l 1) Hr1))).
  rewrite (bind_inr _ _ w1 w1 _ (getTotal_run w1)).
  change (page w1) with (page w).
  rewrite (rowPrice_wholeNumber r0 a0 Ha0), (rowPrice_wholeNumber r1 a1 Ha1),
    (parsePrice_wholeNumber_Number _ t Ht).
  rewrite Number_add_integers
    by (try exact Hsum; eapply wholeNumber_nonneg; eassumption).
  unfold expect_Number_toBe. rewrite Number_is_ofInteger.
  destruct (t =? a0 + a1); [|reflexivity].
  rewrite (bind_inr _ _ w1 w1 tt eq_refl).
  rewrite (bind_inr _ _ w1 w1 _
             (getRowName_present 0 r0 w1 (f_equal (fun l => nth_error l 0) Hr1))).
  rewrite (bind_inr _ _ w1 w1 _
             (getRowName_present 1 r1 w1 (f_equal (fun l => nth_error l 1) Hr1))).
  unfold expect_toContain. cbn [andb].
  destruct (includes (join2 (rowName r0) (rowName r1)) (js "Sony vaio i5"));
    [|reflexivity].
  rewrite (bind_inr _ _ w1 w1 tt eq_refl).
  destruct (includes (join2 (rowName r0) (rowName r1)) (js "Sony vaio i7")); reflexivity.
Qed.

Lemma TC02_compares_total_with_two_rows_witness :
  TC02_cart twoLaptops = (inr tt, {| page := page twoLaptops; log := [ClickCart] |}) /\
  TC02_cart laptops = (inl ExpectError, {| page := page laptops; log := [ClickCart] |}).
Proof.
  split.
  - refine (TC02_compares_total_with_two_rows twoLaptops
              {| nameCell := Some (js "Sony vaio i7"); priceCell := Some (js "790") |}
              {| nameCell := Some (js "Sony vaio i5"); priceCell := Some (js "790") |}
              [] 790 790 1580 eq_refl _ _ _ eq_refl);
      repeat constructor; try discriminate; reflexivity.
  - refine (TC02_compares_total_with_two_rows laptops
              {| nameCell := Some (js "Sony vaio i5"); priceCell := Some (js "790") |}
              {| nameCell := Some (js "Sony vaio i7"); priceCell := Some (js "790") |}
              [ {| nameCell := Some (js " Dell i7 8gb "); priceCell := Some (js "$1,235") |} ]
              790 790 2815 eq_refl _ _ _ eq_refl);
      repeat constructor; try discriminate; reflexivity.
Defined.

(** X11: TC-03 passes only where the wait after the deletion of row 0 is
    confirmed although a row stands at position 0 of the page once settled,
    and the listing is one row shorter; on a storefront that takes the row
    out in place, where the next row keeps the locator attached, it fails on
    every cart. *)
Theorem TC03_needs_the_listing_redrawn (shop : Storefront) (w w' : World) :
  (TC03_cart shop w = (inr tt, w') ->
   detached shop 0 (deleted shop 0 (page w)) = true /\
   noRowAt 0 (deleted shop 0 (page w)) = false /\
   List.length (rows (deleted shop 0 (page w))) = (List.length (rows (page w)) - 1)%nat) /\
  (exists e, fst (TC03_cart inPlace w) = inl e).
Proof.
  split; [apply TC03_passes | apply TC03_inPlace_fails].
Qed.

Lemma TC03_needs_the_listing_redrawn_witness :
  TC03_cart redrawn giftAndLaptop = (inr tt, afterDeletion redrawn 0
    {| page := page giftAndLaptop; log := [ClickCart] |}) /\
  detached redrawn 0 (deleted redrawn 0 (page giftAndLaptop)) = true /\
  noRowAt 0 (deleted redrawn 0 (page giftAndLaptop)) = false /\
  List.length (rows (deleted redrawn 0 (page giftAndLaptop))) = 1%nat.
Proof.
  split; [reflexivity|].
  apply (proj1 (TC03_needs_the_listing_redrawn redrawn giftAndLaptop
                  (afterDeletion redrawn 0 {| page := page giftAndLaptop; log := [ClickCart] |}))).
  reflexivity.
Defined.
